(** * Aurora/PostgreSQL load-testing scripts: benchmark harness and batch loader

    A shallow embedding of three scripts of the repository:

    - [aurora-map-bench.py]        (module [MapBench]):   count-based benchmark
      on a psycopg2 connection pool;
    - [aurora-map-query-bench2.py] (module [QueryBench2]): duration-based
      escalating benchmark with one connection per worker thread;
    - [aurora-map-insertmany.py]   (module [MapInsertMany]): parallel batch
      loader feeding a bounded queue.

    Conventions of the embedding.

    - Python [int] is [Z]; Python [float] (seconds returned by [time.time()],
      latencies, throughput) is modelled by exact rationals [Q], compared with
      [==].  Rounding of IEEE doubles is not modelled.
    - Python exceptions are values of [exn]; a computation that may raise
      returns [res A = exn + A]; code that also reads the clock, logs, prints
      or talks to the database runs in the state-and-exception monad [M].
    - What the outside world does during a call (how long the pool or the
      server takes, whether the server fails, how many rows come back) is an
      explicit argument of the embedded function. *)

From Stdlib Require Import ZArith QArith Qabs List Bool String Ascii Lia Lqa.
From Stdlib Require Import Permutation Sorted DecimalString.
Import ListNotations.

Set Implicit Arguments.

(** ** Python runtime: exceptions, the monad, builtins *)

Module Py.

Inductive exn : Type :=
| StatisticsError   (* statistics.mean/median/stdev on too little data *)
| ValueError        (* min()/max() of an empty sequence, range() step 0, ... *)
| ZeroDivisionError
| IndexError
| PoolError         (* psycopg2.pool: connection pool exhausted *)
| DatabaseError.    (* any psycopg2.Error raised by connect/execute/fetchall *)

Definition res (A : Type) : Type := (exn + A)%type.

Definition M (S A : Type) : Type := S -> res A * S.

Definition ret {S A} (a : A) : M S A := fun s => (inr a, s).

Definition bind {S A B} (m : M S A) (k : A -> M S B) : M S B :=
  fun s => match m s with
           | (inl e, s') => (inl e, s')
           | (inr a, s') => k a s'
           end.

Definition raise {S A} (e : exn) : M S A := fun s => (inl e, s).

Definition lift {S A} (r : res A) : M S A := fun s => (r, s).

Definition get {S} : M S S := fun s => (inr s, s).

Definition modify {S} (f : S -> S) : M S unit := fun s => (inr tt, f s).

(** [try: m except Exception as e: h e] *)
Definition try_except {S A} (m : M S A) (h : exn -> M S A) : M S A :=
  fun s => match m s with
           | (inl e, s') => h e s'
           | (inr a, s') => (inr a, s')
           end.

(** [try: m finally: f].  The [finally] block runs on every exit of [m]; the
    outcome of [m] (value or exception) is kept unless [f] itself raises. *)
Definition try_finally {S A} (m : M S A) (f : M S unit) : M S A :=
  fun s => let (r, s') := m s in
           match f s' with
           | (inl e, s'') => (inl e, s'')
           | (inr _, s'') => (r, s'')
           end.

Declare Scope py_scope.
Delimit Scope py_scope with py.
Notation "x <- m ;; k" := (bind m (fun x => k))
  (at level 61, m at next level, right associativity) : py_scope.
Notation "m ;;; k" := (bind m (fun _ => k))
  (at level 61, right associativity) : py_scope.

(** Pure binds on [res]. *)
Definition rbind {A B} (r : res A) (k : A -> res B) : res B :=
  match r with inl e => inl e | inr a => k a end.

(** [for x in xs: body x] *)
Fixpoint for_each {S A} (xs : list A) (body : A -> M S unit) : M S unit :=
  match xs with
  | [] => ret tt
  | x :: xs' => bind (body x) (fun _ => for_each xs' body)
  end.

(** *** Builtins on numbers and lists *)

Definition len {A} (l : list A) : Z := Z.of_nat (List.length l).

(** [sum(l)] on ints and on floats: a left fold from 0. *)
Definition sumZ (l : list Z) : Z := fold_left Z.add l 0%Z.
Definition sumQ (l : list Q) : Q := fold_left Qplus l 0%Q.

(** [a / b] (true division) *)
Definition truediv (a b : Q) : res Q :=
  if Qeq_bool b 0 then inl ZeroDivisionError else inr (a / b)%Q.

(** [l[i]] for a non-negative index. *)
Definition getitem {A} (l : list A) (i : Z) : res A :=
  if (i <? 0)%Z then inl IndexError
  else match nth_error l (Z.to_nat i) with
       | Some a => inr a
       | None => inl IndexError
       end.

(** [min(l)]: first minimal element; [max(l)]: first maximal element. *)
Fixpoint min_from (best : Q) (l : list Q) : Q :=
  match l with
  | [] => best
  | x :: l' => min_from (if Qlt_le_dec x best then x else best) l'
  end.

Definition min (l : list Q) : res Q :=
  match l with [] => inl ValueError | x :: l' => inr (min_from x l') end.

Fixpoint max_from (best : Q) (l : list Q) : Q :=
  match l with
  | [] => best
  | x :: l' => max_from (if Qlt_le_dec best x then x else best) l'
  end.

Definition max (l : list Q) : res Q :=
  match l with [] => inl ValueError | x :: l' => inr (max_from x l') end.

(** [max(l, key=f)]: the first element whose key is maximal. *)
Fixpoint max_by_from {A} (key : A -> Q) (best : A) (l : list A) : A :=
  match l with
  | [] => best
  | x :: l' => max_by_from key (if Qlt_le_dec (key best) (key x) then x else best) l'
  end.

Definition max_by {A} (key : A -> Q) (l : list A) : res A :=
  match l with [] => inl ValueError | x :: l' => inr (max_by_from key x l') end.

(** [sorted(l)]: a stable ascending sort. *)
Fixpoint insert_sorted (x : Q) (l : list Q) : list Q :=
  match l with
  | [] => [x]
  | y :: l' => if Qlt_le_dec x y then x :: l else y :: insert_sorted x l'
  end.

Definition sorted (l : list Q) : list Q :=
  fold_left (fun acc x => insert_sorted x acc) l [].

(** [int(n * 0.95)] for a list length [n >= 0].  The double nearest to 0.95
    lies 4.4e-17 below it; for every length a list can have the product
    rounds to a double with the same integer part as 95*n/100, so the
    truncation equals the exact floor. *)
Definition int_mul_095 (n : Z) : Z := (95 * n / 100)%Z.

(** [range(start, stop, step)] *)
Definition range_len (start stop step : Z) : Z :=
  if (0 <? step)%Z then
    if (start <? stop)%Z then (stop - start - 1) / step + 1 else 0
  else
    if (stop <? start)%Z then (start - stop - 1) / (- step) + 1 else 0.

Definition range3 (start stop step : Z) : res (list Z) :=
  if (step =? 0)%Z then inl ValueError
  else inr (map (fun i => (start + Z.of_nat i * step)%Z)
                (seq 0 (Z.to_nat (range_len start stop step)))).

Definition range (n : Z) : list Z := map Z.of_nat (seq 0 (Z.to_nat n)).

(** *** The [statistics] module *)

Section Statistics.

(** [math.sqrt] on the rational model of floats. *)
Variable fsqrt : Q -> Q.

Definition mean (l : list Q) : res Q :=
  match l with
  | [] => inl StatisticsError
  | _ => inr (sumQ l / inject_Z (len l))%Q
  end.

Definition median (l : list Q) : res Q :=
  let data := sorted l in
  let n := len data in
  if (n =? 0)%Z then inl StatisticsError
  else if (n mod 2 =? 1)%Z then getitem data (n / 2)
  else rbind (getitem data (n / 2 - 1)) (fun a =>
       rbind (getitem data (n / 2)) (fun b =>
       inr ((a + b) / 2)%Q)).

(** [statistics.stdev]: sample standard deviation, at least two points. *)
Definition stdev (l : list Q) : res Q :=
  if (len l <? 2)%Z then inl StatisticsError
  else
    let m := (sumQ l / inject_Z (len l))%Q in
    let ss := sumQ (map (fun x => (x - m) * (x - m))%Q l) in
    inr (fsqrt (ss / inject_Z (len l - 1))%Q).

End Statistics.

End Py.

Import Py.
Local Open Scope py_scope.

(** ** aurora-map-bench.py *)

Module MapBench.

(** A sample is the tuple [(execution_time, row_count)] returned by
    [execute_query]. *)
Definition sample : Type := (Q * Z)%type.

(** A pooled connection handle. *)
Definition conn : Type := nat.

Inductive pool_event : Type :=
| EvGetconn (c : conn)       (* connection_pool.getconn() returned c *)
| EvGetconnFailed            (* connection_pool.getconn() raised *)
| EvPutconn (c : conn).      (* connection_pool.putconn(c) was called *)

(** What one thread observes: the wall clock, the calls it made on the pool
    and the lines it sent to [logger.error]. *)
Record world : Type := mkWorld {
  now : Q;
  pool_log : list pool_event;
  err_log : list exn
}.

(** What the pool and the server do during one call of [execute_query]. *)
Record call_env : Type := mkEnv {
  getconn_delay : Q;             (* time spent inside getconn() *)
  getconn_result : option conn;  (* None: getconn() raises PoolError *)
  query_delay : Q;               (* time spent in execute() and fetchall() *)
  query_rows : option Z;         (* None: the server call raises; Some n: len(results) *)
  putconn_delay : Q              (* time spent inside putconn() *)
}.

(** The frame of [execute_query]: its local variable [conn] and the world. *)
Record frame : Type := mkFrame {
  conn_var : option conn;
  outer : world
}.

Definition tick (d : Q) (w : world) : world :=
  mkWorld (now w + d) (pool_log w) (err_log w).

Definition log_pool (ev : pool_event) (w : world) : world :=
  mkWorld (now w) (pool_log w ++ [ev]) (err_log w).

Definition on_world (f : world -> world) : M frame unit :=
  modify (fun fr => mkFrame (conn_var fr) (f (outer fr))).

Definition time_time : M frame Q := fun fr => (inr (now (outer fr)), fr).

Definition set_conn (c : conn) : M frame unit :=
  modify (fun fr => mkFrame (Some c) (outer fr)).

Definition getconn (env : call_env) : M frame conn :=
  on_world (tick (getconn_delay env)) ;;;
  match getconn_result env with
  | Some c => on_world (log_pool (EvGetconn c)) ;;; ret c
  | None => on_world (log_pool EvGetconnFailed) ;;; raise PoolError
  end.

(** [with conn.cursor() as cursor: cursor.execute(...); results = cursor.fetchall();
    row_count = len(results)] *)
Definition run_query (env : call_env) (c : conn) : M frame Z :=
  on_world (tick (query_delay env)) ;;;
  match query_rows env with
  | Some n => ret n
  | None => raise DatabaseError
  end.

Definition putconn (env : call_env) (c : conn) : M frame unit :=
  on_world (tick (putconn_delay env)) ;;;
  on_world (log_pool (EvPutconn c)).

Definition logger_error (e : exn) : M frame unit :=
  on_world (fun w => mkWorld (now w) (pool_log w) (err_log w ++ [e])).

(** The [try] block of [execute_query] (lines 87-96). *)
Definition execute_query_try (env : call_env) : M frame (option sample) :=
  start_time <- time_time ;;
  c <- getconn env ;;
  set_conn c ;;;
  row_count <- run_query env c ;;
  t <- time_time ;;
  let execution_time := (t - start_time)%Q in
  ret (Some (execution_time, row_count)).

(** [except Exception as e: logger.error(...); return None] *)
Definition execute_query_except (e : exn) : M frame (option sample) :=
  logger_error e ;;; ret None.

(** [finally: if conn: self.connection_pool.putconn(conn)] *)
Definition execute_query_finally (env : call_env) : M frame unit :=
  fr <- get ;;
  match conn_var fr with
  | Some c => putconn env c
  | None => ret tt
  end.

(** [execute_query]: [conn = None], then try / except / finally.  The result
    is [None] on failure and [Some (execution_time, row_count)] otherwise. *)
Definition execute_query (env : call_env) : M world (option sample) :=
  fun w =>
    let (r, fr) :=
      try_finally
        (try_except (execute_query_try env) execute_query_except)
        (execute_query_finally env)
        (mkFrame None w) in
    (r, outer fr).

(** [worker_task]: one call of [execute_query] per iteration; [envs] gives
    what the pool and the server do at each iteration (the random tile and
    timestamp only select which rows the server returns).  [if result:] keeps
    the tuples and skips [None]. *)
Fixpoint worker_loop (envs : list call_env) (results : list sample)
  : M world (list sample) :=
  match envs with
  | [] => ret results
  | env :: envs' =>
      result <- execute_query env ;;
      match result with
      | Some s => worker_loop envs' (results ++ [s])
      | None => worker_loop envs' results
      end
  end.

Definition worker_task (envs : list call_env) : M world (list sample) :=
  worker_loop envs [].

Record stats : Type := mkStats {
  concurrency : Z;
  total_queries : Z;
  total_time : Q;
  queries_per_second : Q;
  min_time : Q;
  max_time : Q;
  avg_time : Q;
  median_time : Q;
  p95_time : Q;
  total_rows : Z;
  avg_rows : Q;
  stddev_time : Q
}.

Section RunBenchmark.

Variable fsqrt : Q -> Q.

(** Lines 168-171: [try: stdev(...) except statistics.StatisticsError: 0]. *)
Definition stddev_or_zero (execution_times : list Q) : res Q :=
  match stdev fsqrt execution_times with
  | inl StatisticsError => inr 0%Q
  | other => other
  end.

(** Lines 146-173 of [run_benchmark]: the statistics computed from the merged
    [results] and the measured [total_time].  [inr None] is [return None]. *)
Definition compute_stats (concurrency_level : Z) (total_time_v : Q)
    (results : list sample) : res (option stats) :=
  match results with
  | [] => inr None
  | _ =>
    let execution_times := map fst results in
    let row_counts := map snd results in
    rbind (truediv (inject_Z (len results)) total_time_v) (fun qps =>
    rbind (Py.min execution_times) (fun mn =>
    rbind (Py.max execution_times) (fun mx =>
    rbind (mean execution_times) (fun avg =>
    rbind (median execution_times) (fun med =>
    rbind (getitem (sorted execution_times)
                   (int_mul_095 (len execution_times))) (fun p95 =>
    rbind (mean (map inject_Z row_counts)) (fun avgrows =>
    rbind (stddev_or_zero execution_times) (fun sd =>
    inr (Some (mkStats concurrency_level (len results) total_time_v qps
                       mn mx avg med p95 (sumZ row_counts) avgrows sd))))))))))
  end.

(** [run_benchmark].  [futures] are the outcomes of the [concurrency] worker
    tasks in completion order: [inr samples] when [future.result()] returns,
    [inl e] when it raises (caught and logged at lines 138-142).
    [start_time] and [end_time] are the two readings of [time.time()] at
    lines 127 and 144. *)
Definition collect (futures : list (res (list sample))) : list sample :=
  fold_left (fun results fut =>
               match fut with
               | inr task_results => results ++ task_results
               | inl _ => results
               end) futures [].

Definition run_benchmark (concurrency_level queries_per_thread : Z)
    (start_time end_time : Q) (futures : list (res (list sample)))
  : res (option stats) :=
  if (concurrency_level <=? 0)%Z then inl ValueError  (* ThreadPoolExecutor(max_workers <= 0) *)
  else
    let results := collect futures in
    let total_time_v := (end_time - start_time)%Q in
    compute_stats concurrency_level total_time_v results.

(** How one worker task of the cohort ends: [inr envs] when [worker_task]
    runs its iterations against [envs] and returns; [inl e] when an
    unexpected exception [e] escapes the task, so its future raises. *)
Definition task_env : Type := res (list call_env).

Definition future_result (t0 : Q) (te : task_env) : res (list sample) :=
  match te with
  | inl e => inl e
  | inr envs => fst (worker_task envs (mkWorld t0 [] []))
  end.

(** [run_benchmark] on a cohort of tasks launched at [start_time]. *)
Definition run_benchmark_cohort (concurrency_level queries_per_thread : Z)
    (start_time end_time : Q) (tasks : list task_env) : res (option stats) :=
  run_benchmark concurrency_level queries_per_thread start_time end_time
                (map (future_result start_time) tasks).

End RunBenchmark.

(** Vocabulary for the statements below: a call succeeds when the pool hands
    out a connection and the server answers. *)
Definition call_succeeds (env : call_env) : bool :=
  match getconn_result env, query_rows env with
  | Some _, Some _ => true
  | _, _ => false
  end.

Definition failed_calls (envs : list call_env) : nat :=
  List.length (filter (fun env => negb (call_succeeds env)) envs).

Definition successful_calls (envs : list call_env) : nat :=
  List.length (filter call_succeeds envs).

(** The pool calls one invocation of [execute_query] is expected to make. *)
Definition pool_calls (env : call_env) : list pool_event :=
  match getconn_result env with
  | Some c => [EvGetconn c; EvPutconn c]
  | None => [EvGetconnFailed]
  end.

End MapBench.

(** ** aurora-map-query-bench2.py *)

Module QueryBench2.

(** The dict put on [results_queue] after each successful query. *)
Record qresult : Type := mkQResult {
  thread_id : Z;
  query_time : Q;
  result_count : Z;
  tile : string;
  max_tsver : Z
}.

Record stats : Type := mkStats {
  concurrency : Z;
  total_queries : Z;
  queries_per_second : Q;
  avg_query_time : Q;
  min_query_time : Q;
  max_query_time : Q;
  p95_query_time : Q;
  avg_result_count : Q
}.

(** Lines written to standard output (the formatted numbers are left out). *)
Inductive line : Type :=
| PStartBenchmark (c : Z) (duration : Q)   (* "Starting benchmark with c concurrent threads ..." *)
| PThreadError (tid : Z) (e : exn)         (* "Thread tid error: e" *)
| PEscalatingHeader (max_c step : Z)       (* "Starting escalating benchmark up to ..." *)
| PLevelResults (c : Z)                    (* "Results for c concurrent threads:" ... *)
| PSummaryRow (c : Z)                      (* one row of the summary table *)
| POptimal (c : Z) (qps : Q).              (* "Optimal concurrency: c", "Maximum throughput: qps" *)

Record world : Type := mkWorld {
  now : Q;
  results_queue : list qresult;
  stdout : list line
}.

(** One iteration of a worker's [while] loop, as the server answers it. *)
Record query_env : Type := mkQuery {
  q_tile : string;         (* random.choice(SAMPLE_TILES) *)
  q_max_tsver : Z;         (* random.choice(SAMPLE_TIMESTAMPS) *)
  q_delay : Q;             (* time spent in execute() and fetchall() *)
  q_rows : option Z        (* None: the server call raises; Some n: len(results) *)
}.

(** What happens to one worker thread: whether [create_connection()] and
    [conn.cursor()] succeed, and the iterations it starts before it sees
    [stop_event] set. *)
Record worker_env : Type := mkWorker {
  connect_ok : bool;
  iterations : list query_env
}.

(** The frame of [execute_query]: its local [query_count] and the world. *)
Record frame : Type := mkFrame {
  query_count : Z;
  outer : world
}.

Definition on_world (f : world -> world) : M frame unit :=
  modify (fun fr => mkFrame (query_count fr) (f (outer fr))).

Definition time_time : M frame Q := fun fr => (inr (now (outer fr)), fr).

Definition tick (d : Q) (w : world) : world :=
  mkWorld (now w + d) (results_queue w) (stdout w).

Definition queue_put (r : qresult) (w : world) : world :=
  mkWorld (now w) (results_queue w ++ [r]) (stdout w).

Definition print (l : line) (w : world) : world :=
  mkWorld (now w) (results_queue w) (stdout w ++ [l]).

(** The body of the [while] loop (lines 62-87). *)
Definition query_once (tid : Z) (q : query_env) : M frame unit :=
  query_start <- time_time ;;
  on_world (tick (q_delay q)) ;;;
  match q_rows q with
  | None => raise DatabaseError
  | Some n =>
      query_end <- time_time ;;
      let query_time_v := (query_end - query_start)%Q in
      on_world (queue_put (mkQResult tid query_time_v n (q_tile q) (q_max_tsver q))) ;;;
      modify (fun fr => mkFrame (query_count fr + 1) (outer fr))
  end.

(** [execute_query(thread_id)]: [create_connection()] and [conn.cursor()] run
    before the [try]; the loop runs inside it.  Returns
    [(query_count, time.time() - start_time)]. *)
Definition execute_query (tid : Z) (env : worker_env) : M world (Z * Q) :=
  fun w =>
    if negb (connect_ok env) then (inl DatabaseError, w)
    else
      let start_time := now w in
      let (r, fr) :=
        try_finally
          (try_except (for_each (iterations env) (query_once tid))
                      (fun e => on_world (print (PThreadError tid e))))
          (ret tt)                         (* cursor.close(); conn.close() *)
          (mkFrame 0 w) in
      match r with
      | inl e => (inl e, outer fr)
      | inr _ => (inr (query_count fr, now (outer fr) - start_time)%Q, outer fr)
      end.

(** What happens during one call of [run_benchmark]: the fate of each worker
    thread and the time the runner waits, after [stop_event.set()], for the
    workers to finish their query in flight. *)
Record run_env : Type := mkRun {
  worker_of : Z -> worker_env;
  join_tail : Q
}.

(** [executor.submit(self.execute_query, i) for i in range(concurrency)]: the
    threads all start at the launch time [t0]; their puts and prints are
    recorded in thread order.  A future stores the worker's outcome; nothing
    is raised here. *)
Fixpoint submit_all (t0 : Q) (env : run_env) (tids : list Z) (w : world)
  : list (res (Z * Q)) * world :=
  match tids with
  | [] => ([], w)
  | i :: tids' =>
      let (r, w1) := execute_query i (worker_of env i)
                       (mkWorld t0 (results_queue w) (stdout w)) in
      let (rs, w2) := submit_all t0 env tids' w1 in
      (r :: rs, w2)
  end.

(** [[future.result() for future in futures]]: the first stored exception is
    raised again. *)
Fixpoint results_of {A} (futures : list (res A)) : res (list A) :=
  match futures with
  | [] => inr []
  | inl e :: _ => inl e
  | inr a :: fs => rbind (results_of fs) (fun l => inr (a :: l))
  end.

Definition mean_or_zero (l : list Q) : res Q :=
  match l with [] => inr 0%Q | _ => mean l end.
Definition min_or_zero (l : list Q) : res Q :=
  match l with [] => inr 0%Q | _ => Py.min l end.
Definition max_or_zero (l : list Q) : res Q :=
  match l with [] => inr 0%Q | _ => Py.max l end.
Definition p95_or_zero (l : list Q) : res Q :=
  if (20 <=? len l)%Z then getitem (sorted l) (int_mul_095 (len l)) else inr 0%Q.

(** Lines 129-139: the [stats] dict. *)
Definition compute_stats (concurrency_level : Z) (duration : Q)
    (total_queries_v : Z) (drained : list qresult) : res stats :=
  let query_times := map query_time drained in
  let result_counts := map result_count drained in
  rbind (truediv (inject_Z total_queries_v) duration) (fun qps =>
  rbind (mean_or_zero query_times) (fun avg =>
  rbind (min_or_zero query_times) (fun mn =>
  rbind (max_or_zero query_times) (fun mx =>
  rbind (p95_or_zero query_times) (fun p95 =>
  rbind (mean_or_zero (map inject_Z result_counts)) (fun avgrc =>
  inr (mkStats concurrency_level total_queries_v qps avg mn mx p95 avgrc))))))).

(** [run_benchmark(concurrency, duration)].  With [duration < 0],
    [time.sleep] raises before [stop_event] is set and the executor then
    waits for workers that never stop; the model reports the [ValueError]. *)
Definition run_benchmark (concurrency_level : Z) (duration : Q) (env : run_env)
  : M world stats :=
  fun w0 =>
    let w1 := print (PStartBenchmark concurrency_level duration) w0 in
    let w2 := mkWorld (now w1) [] (stdout w1) in      (* self.results_queue = Queue() *)
    if (concurrency_level <=? 0)%Z then (inl ValueError, w2)
    else
      let t0 := now w2 in
      let (futures, w3) := submit_all t0 env (range concurrency_level) w2 in
      if Qlt_le_dec duration 0 then (inl ValueError, w3)
      else
        (* time.sleep(duration); stop_event.set(); wait(futures) *)
        let w4 := mkWorld (t0 + duration + join_tail env) (results_queue w3) (stdout w3) in
        match results_of futures with
        | inl e => (inl e, w4)
        | inr thread_results =>
            let total_queries_v := sumZ (map fst thread_results) in
            let drained := results_queue w4 in
            let w5 := mkWorld (now w4) [] (stdout w4) in
            (compute_stats concurrency_level duration total_queries_v drained, w5)
        end.

(** [run_escalating_benchmark]: the [for] loop over
    [range(step_size, max_concurrency + 1, step_size)]. *)
Fixpoint escalate (levels : list Z) (duration_per_step : Q)
    (env_of : Z -> run_env) (results : list stats) : M world (list stats) :=
  match levels with
  | [] => ret results
  | c :: levels' =>
      st <- run_benchmark c duration_per_step (env_of c) ;;
      modify (print (PLevelResults c)) ;;;
      escalate levels' duration_per_step env_of (results ++ [st])
  end.

Definition run_escalating_benchmark (max_concurrency step_size : Z)
    (duration_per_step : Q) (env_of : Z -> run_env) : M world (list stats) :=
  modify (print (PEscalatingHeader max_concurrency step_size)) ;;;
  levels <- lift (range3 step_size (max_concurrency + 1) step_size) ;;
  escalate levels duration_per_step env_of [].

(** [print_summary]: one row per result, then the result with the largest
    [queries_per_second]. *)
Definition print_summary (results : list stats) : M world unit :=
  for_each results (fun st => modify (print (PSummaryRow (concurrency st)))) ;;;
  optimal <- lift (max_by queries_per_second results) ;;
  modify (print (POptimal (concurrency optimal) (queries_per_second optimal))).

(** Vocabulary for the statements below. *)

(** A worker that records no sample: it starts no query, or its first query
    fails (which ends its loop). *)
Definition no_sample (env : worker_env) : Prop :=
  match iterations env with
  | [] => True
  | q :: _ => q_rows q = None
  end.

(** The lines one level of the sweep prints, when no worker reports an error. *)
Definition level_lines (duration : Q) (c : Z) : list line :=
  [PStartBenchmark c duration; PLevelResults c].

(** The start and result lines of the levels, in the order printed. *)
Definition level_marks (out : list line) : list line :=
  filter (fun l => match l with
                   | PStartBenchmark _ _ | PLevelResults _ => true
                   | _ => false
                   end) out.

End QueryBench2.

(** ** aurora-map-insertmany.py *)

Module MapInsertMany.

Local Open Scope Z_scope.

(** One generated row:
    [(branch, tile, element, tsver, element_value, element_md5)]. *)
Record row : Type := mkRow {
  branch : string;
  tile : string;
  element : string;
  tsver : Z;
  element_value : string;
  element_md5 : string
}.

Definition BRANCHES : list string :=
  ["north"; "south"; "east"; "west"; "central"]%string.
Definition NUM_TILES_PER_BRANCH : Z := 20.

(** [f"{i:03d}"] for [i >= 0]: decimal digits, zero-padded to width 3. *)
Definition fmt_03d (i : Z) : string :=
  let digits := NilEmpty.string_of_uint (Nat.to_uint (Z.to_nat i)) in
  let digits := if (i =? 0)%Z then "0"%string else digits in
  match String.length digits with
  | 1%nat => ("00" ++ digits)%string
  | 2%nat => ("0" ++ digits)%string
  | _ => digits
  end.

(** [range(a, b)] *)
Definition range2 (a b : Z) : list Z :=
  map (fun i => (a + Z.of_nat i)%Z) (seq 0 (Z.to_nat (b - a))).

Definition all_tiles : list string :=
  map (fun i => ("t" ++ fmt_03d i)%string) (range2 1 (NUM_TILES_PER_BRANCH + 1)).

Definition element_prefixes : list string := ["rd"; "bld"; "poi"; "trf"; "ter"]%string.

Definition all_elements : list string :=
  flat_map (fun prefix => map (fun i => (prefix ++ fmt_03d i)%string) (range2 1 11))
           element_prefixes.

Section Loader.

(** The state of the [random] module and its primitive [_randbelow(n)]. *)
Variable rng : Type.
Variable randbelow : Z -> rng -> Z * rng.

(** [hashlib.md5(text.encode()).hexdigest()] *)
Variable md5_hexdigest : string -> string.

(** Module constants fixed at import time: the clock reading [END_TIME], the
    forty random words appended to [ELEMENT_VALUES], and the sizes. *)
Variable END_TIME : Z.
Variable random_words : list string.
Variables NUM_ROWS BATCH_SIZE NUM_WORKERS : Z.

Definition START_TIME : Z := END_TIME - 30 * 24 * 60 * 60 * 1000.

Definition ELEMENT_VALUES : list string :=
  List.app ["active"; "inactive"; "pending"; "damaged"; "new";
            "residential"; "commercial"; "industrial"; "public"; "private"]%string
           random_words.

(** [random.choice(seq)] *)
Definition choice {A} (l : list A) : M rng A :=
  fun g =>
    match l with
    | [] => (inl IndexError, g)
    | _ => let (i, g') := randbelow (len l) g in (getitem l i, g')
    end.

(** [random.randint(a, b)] *)
Definition randint (a b : Z) : M rng Z :=
  fun g =>
    if (b <? a)%Z then (inl ValueError, g)
    else let (i, g') := randbelow (b - a + 1) g in (inr (a + i)%Z, g').

Definition generate_md5 (text : string) : string :=
  substring 0 16 (md5_hexdigest text).

(** The [for _ in range(batch_size)] loop of [generate_batch]. *)
Fixpoint generate_rows (n : nat) (tiles elements : list string)
    (batch_data : list row) : M rng (list row) :=
  match n with
  | O => ret batch_data
  | S n' =>
      branch_v <- choice BRANCHES ;;
      tile_v <- choice tiles ;;
      element_v <- choice elements ;;
      tsver_v <- randint START_TIME END_TIME ;;
      element_value_v <- choice ELEMENT_VALUES ;;
      let element_md5_v := generate_md5 element_value_v in
      generate_rows n' tiles elements
        (batch_data ++ [mkRow branch_v tile_v element_v tsver_v
                              element_value_v element_md5_v])
  end.

Definition generate_batch (batch_id batch_size : Z) (tiles elements : list string)
  : M rng (list row) :=
  generate_rows (Z.to_nat batch_size) tiles elements [].






End Loader.

End MapInsertMany.

(** ** Concrete scenarios

    Inputs on which the statements below are evaluated. *)

Module Scenarios.

(** An approximation of [math.sqrt]: five Newton steps from 1. *)
Definition newton_sqrt (x : Q) : Q :=
  let step := fun y : Q => Qred ((y + x / y) / 2) in
  if Qle_bool x 0 then 0%Q else step (step (step (step (step 1%Q)))).

(** aurora-map-bench.py: a thread whose clock reads 100 s. *)
Definition thread_start : MapBench.world := MapBench.mkWorld 100 [] [].

(** The pool takes 5 s to hand out connection 7, the server answers in 1 s
    with 3 rows, the release takes half a second. *)
Definition slow_pool_call : MapBench.call_env :=
  MapBench.mkEnv 5 (Some 7%nat) 1 (Some 3%Z) (1 # 2).

(** The same call with the server raising an error. *)
Definition failing_query_call : MapBench.call_env :=
  MapBench.mkEnv 5 (Some 7%nat) 1 None (1 # 2).

(** The pool raises instead of handing out a connection. *)
Definition exhausted_pool_call : MapBench.call_env :=
  MapBench.mkEnv 5 None 1 (Some 3%Z) (1 # 2).

(** Twenty samples with latencies 1, 2, ..., 20 seconds and one row each. *)
Definition twenty_samples : list MapBench.sample :=
  map (fun i => (inject_Z (Z.of_nat i), 1%Z)) (seq 1 20).

(** 500 samples of 10 ms and 5 rows each. *)
Definition five_hundred_samples : list MapBench.sample :=
  repeat ((1 # 100)%Q, 5%Z) 500.

(** aurora-map-query-bench2.py: an idle process at time 0. *)
Definition idle : QueryBench2.world := QueryBench2.mkWorld 0 [] [].

(** A worker that connects and completes [n] queries of 10 ms and 5 rows. *)
Definition steady_worker (n : nat) : QueryBench2.worker_env :=
  QueryBench2.mkWorker true
    (repeat (QueryBench2.mkQuery "t001" 1739769029270 (1 # 100) (Some 5%Z)) n).

(** A worker whose [create_connection()] raises. *)
Definition unconnected_worker : QueryBench2.worker_env :=
  QueryBench2.mkWorker false [].

(** A worker whose first query raises. *)
Definition failing_worker : QueryBench2.worker_env :=
  QueryBench2.mkWorker true
    [QueryBench2.mkQuery "t001" 1739769029270 (1 # 100) None].

(** Every worker completes three queries; the runner waits 2 s for the
    workers after setting the stop event. *)
Definition steady_run : QueryBench2.run_env :=
  QueryBench2.mkRun (fun _ => steady_worker 3) 2.

(** Thread 0 cannot connect, the other threads complete three queries. *)
Definition one_unconnected_run : QueryBench2.run_env :=
  QueryBench2.mkRun
    (fun i => if (i =? 0)%Z then unconnected_worker else steady_worker 3) 2.

(** aurora-map-insertmany.py: a linear congruential generator standing for
    the state of [random]. *)
Definition lcg_randbelow (n : Z) (g : Z) : Z * Z :=
  ((g mod n)%Z, ((g * 75 + 74) mod 65537)%Z).

End Scenarios.

(** ** aurora-map-bench.py: [main] *)

Module MapBenchMain.

Import MapBench.

(** [max(l)] on ints. *)
Fixpoint max_int_from (best : Z) (l : list Z) : Z :=
  match l with
  | [] => best
  | x :: l' => max_int_from (if (best <? x)%Z then x else best) l'
  end.

Definition max_int (l : list Z) : res Z :=
  match l with [] => inl ValueError | x :: l' => inr (max_int_from x l') end.

(** Line 224: [pool_size = max(args.pool_size, max(args.concurrency))]. *)
Definition effective_pool_size (pool_size : Z) (levels : list Z) : res Z :=
  rbind (max_int levels) (fun m => inr (if (pool_size <? m)%Z then m else pool_size)).

Inductive pool_state : Type :=
| PoolAbsent              (* no pool was created *)
| PoolOpen (size : Z)     (* created, not closed *)
| PoolClosed.             (* closeall() was called *)

Inductive out_line : Type :=
| PrintResults (c : Z)                 (* print_benchmark_results for level c *)
| PrintComparisonHeader                (* "COMPARISON ACROSS CONCURRENCY LEVELS" *)
| PrintComparisonRow (c : Z) (qps : Q) (* one row of the comparison table *)
| LogBenchmarkFailed (e : exn).        (* logger.error("Benchmark failed: ...") *)

Record world : Type := mkWorld {
  pool : pool_state;
  out : list out_line
}.

(** What happens at one level: the two clock readings of [run_benchmark] and
    the fate of its tasks. *)
Record level_env : Type := mkLevel {
  lv_start : Q;
  lv_end : Q;
  lv_tasks : list task_env
}.

Section Main.

Variable fsqrt : Q -> Q.

Definition print (l : out_line) : M world unit :=
  modify (fun w => mkWorld (pool w) (out w ++ [l])).

(** Lines 230-235: the loop over [args.concurrency]; [if results:] keeps the
    stats dicts and skips [None]. *)
Fixpoint level_loop (levels : list Z) (queries : Z) (env_of : Z -> level_env)
    (all_results : list stats) : M world (list stats) :=
  match levels with
  | [] => ret all_results
  | c :: levels' =>
      results <- lift (run_benchmark_cohort fsqrt c queries
                         (lv_start (env_of c)) (lv_end (env_of c))
                         (lv_tasks (env_of c))) ;;
      match results with
      | Some st =>
          print (PrintResults (concurrency st)) ;;;
          level_loop levels' queries env_of (all_results ++ [st])
      | None => level_loop levels' queries env_of all_results
      end
  end.

(** Lines 226-250: the body of the [try]. [setup_ok] tells whether
    [ThreadedConnectionPool(...)] could be created. *)
Definition main_try (setup_ok : bool) (pool_size : Z) (levels : list Z)
    (queries : Z) (env_of : Z -> level_env) : M world unit :=
  (if setup_ok
   then modify (fun w => mkWorld (PoolOpen pool_size) (out w))
   else raise DatabaseError) ;;;
  all_results <- level_loop levels queries env_of [] ;;
  (if (1 <? len all_results)%Z
   then print PrintComparisonHeader ;;;
        for_each all_results
          (fun r => print (PrintComparisonRow (concurrency r) (queries_per_second r)))
   else ret tt) ;;;
  modify (fun w => mkWorld PoolClosed (out w)).   (* close_connection_pool() *)

(** [main]: line 224 runs before the [try]; the [except] logs and returns. *)
Definition main (setup_ok : bool) (requested_pool_size : Z) (levels : list Z)
    (queries : Z) (env_of : Z -> level_env) : M world unit :=
  pool_size <- lift (effective_pool_size requested_pool_size levels) ;;
  try_except (main_try setup_ok pool_size levels queries env_of)
             (fun e => print (LogBenchmarkFailed e)).

End Main.

(** The levels whose run collected at least one sample. *)
Definition has_sample (env_of : Z -> level_env) (c : Z) : bool :=
  match collect (map (future_result (lv_start (env_of c))) (lv_tasks (env_of c))) with
  | [] => false
  | _ => true
  end.

(** A level that can run: a positive thread count and a clock that moved. *)
Definition runnable (env_of : Z -> level_env) (c : Z) : Prop :=
  (0 < c)%Z /\ (lv_start (env_of c) < lv_end (env_of c))%Q.

(** The result blocks among the printed lines. *)
Definition result_levels (o : list out_line) : list Z :=
  flat_map (fun l => match l with PrintResults c => [c] | _ => [] end) o.

End MapBenchMain.

(** ** aurora-map-query-bench2.py: [main] *)

Module QueryBench2Main.

Import QueryBench2.

(** Lines 212-235 of [main].  [test_ok] tells whether the connection test
    (lines 217-218) succeeds.  The result is the exit code and, when the
    [except] branch ran, the exception printed after "Error:". *)
Definition main (test_ok : bool) (max_concurrency step_size duration : Z)
    (env_of : Z -> run_env) (w : world) : (Z * option exn) * world :=
  let body : M world unit :=
    (if test_ok then ret tt else raise DatabaseError) ;;;
    results <- run_escalating_benchmark max_concurrency step_size
                 (inject_Z duration) env_of ;;
    print_summary results in
  match body w with
  | (inr _, w') => ((0%Z, None), w')
  | (inl e, w') => ((1%Z, Some e), w')
  end.

(** The queries a worker completes: those before its first failing one. *)
Fixpoint answered_prefix (qs : list query_env) : list (query_env * Z) :=
  match qs with
  | [] => []
  | q :: qs' =>
      match q_rows q with
      | Some n => (q, n) :: answered_prefix qs'
      | None => []
      end
  end.

(** What a queued record says about the query it came from. *)
Definition records_query (tid : Z) (rec : qresult) (qa : query_env * Z) : Prop :=
  thread_id rec = tid /\ (query_time rec == q_delay (fst qa))%Q /\
  result_count rec = snd qa /\ tile rec = q_tile (fst qa) /\
  max_tsver rec = q_max_tsver (fst qa).

Definition has_failure (qs : list query_env) : bool :=
  existsb (fun q => match q_rows q with None => true | Some _ => false end) qs.

End QueryBench2Main.

(** ** Rows of the [map] table *)

Module RowSpec.

Import MapInsertMany.

(** A row as [generate_batch] is meant to build it: identifiers drawn from
    the candidate lists, a timestamp within the last 30 days, a value from
    [ELEMENT_VALUES] and the digest of that value. *)
Definition well_formed (md5_hexdigest : string -> string) (END_TIME : Z)
    (random_words : list string) (tiles elements : list string) (r : row) : Prop :=
  In (branch r) BRANCHES /\
  In (tile r) tiles /\
  In (element r) elements /\
  (START_TIME END_TIME <= tsver r <= END_TIME)%Z /\
  In (element_value r) (ELEMENT_VALUES random_words) /\
  element_md5 r = generate_md5 md5_hexdigest (element_value r).

End RowSpec.

(** ** aurora-map-insertmany.py: the queue and [worker_insert] *)

Module InsertQueue.

Import MapInsertMany.

Local Open Scope Z_scope.

(** What travels on the queue: a batch, or [None] as termination signal. *)
Definition item : Type := option (list row).

(** One consumer thread: the local [rows_inserted], and whether its loop
    has ended. *)
Record worker : Type := mkWorker {
  rows_inserted : Z;
  exited : bool
}.

(** The producer's items still to put, the [queue.Queue] (its items, its
    [maxsize] and its [unfinished_tasks] counter), the workers, and the
    progress bar. *)
Record state : Type := mkState {
  pending : list item;
  queued : list item;
  maxsize : Z;
  unfinished_tasks : Z;
  workers : list worker;
  progress : Z
}.

(** What happens next.  [Get i ok]: worker [i] obtains the head of the queue
    from [q.get(timeout=5)]; [ok] tells whether [execute_values] and
    [commit] succeed on it.  [Timeout i]: the [q.get] of worker [i] raised
    [queue.Empty] and the worker evaluates [q.empty()].  [Put]: the producer
    puts its next item. *)
Inductive event : Type :=
| Put
| Get (i : nat) (insert_ok : bool)
| Timeout (i : nat).

Fixpoint set_worker (i : nat) (wk : worker) (ws : list worker) : list worker :=
  match ws, i with
  | [], _ => []
  | _ :: ws', O => wk :: ws'
  | w0 :: ws', S i' => w0 :: set_worker i' wk ws'
  end.

(** One step; [None] when the event cannot happen in the state (the thread
    would block, or has ended). *)
Definition step (ev : event) (st : state) : option state :=
  match ev with
  | Put =>
      match pending st with
      | [] => None
      | x :: rest =>
          (* q.put blocks while a bounded queue is full *)
          if (0 <? maxsize st) && (maxsize st <=? len (queued st)) then None
          else Some (mkState rest (queued st ++ [x]) (maxsize st)
                             (unfinished_tasks st + 1) (workers st) (progress st))
      end
  | Get i insert_ok =>
      match nth_error (workers st) i, queued st with
      | Some wk, x :: rest =>
          if exited wk then None
          else
            match x with
            | None =>
                (* poison pill: break, without task_done *)
                Some (mkState (pending st) rest (maxsize st) (unfinished_tasks st)
                              (set_worker i (mkWorker (rows_inserted wk) true) (workers st))
                              (progress st))
            | Some batch_data =>
                if insert_ok then
                  (* rows_inserted += len; total_progress.update(len); q.task_done() *)
                  Some (mkState (pending st) rest (maxsize st) (unfinished_tasks st - 1)
                                (set_worker i (mkWorker (rows_inserted wk + len batch_data) false)
                                            (workers st))
                                (progress st + len batch_data))
                else
                  (* except Exception: conn.rollback(); q.task_done() *)
                  Some (mkState (pending st) rest (maxsize st) (unfinished_tasks st - 1)
                                (workers st) (progress st))
            end
      | _, _ => None
      end
  | Timeout i =>
      match nth_error (workers st) i with
      | Some wk =>
          if exited wk then None
          else
            match queued st with
            | [] =>
                (* q.empty() is true: break *)
                Some (mkState (pending st) [] (maxsize st) (unfinished_tasks st)
                              (set_worker i (mkWorker (rows_inserted wk) true) (workers st))
                              (progress st))
            | _ => Some st     (* an item arrived meanwhile: the loop goes on *)
            end
      | None => None
      end
  end.









End InsertQueue.


(** ** aurora-map-insert.py: the sequential loader *)

Module MapInsert.

Import MapInsertMany.

Local Open Scope Z_scope.

Definition ascii_uppercase : list ascii :=
  map ascii_of_nat (seq 65 26).
Definition ascii_lowercase : list ascii :=
  map ascii_of_nat (seq 97 26).

Section Loader.

Variable rng : Type.
Variable randbelow : Z -> rng -> Z * rng.
Variable md5_hexdigest : string -> string.
Variable END_TIME : Z.
Variable NUM_ROWS : Z.

(** [executemany] followed by [commit], for the batch with the given index
    among the calls: [false] when the database raises. *)
Variable insert_ok : nat -> bool.

(** [''.join(random.choices(population, k=k))] *)
Fixpoint choices (population : list ascii) (k : nat) : M rng string :=
  match k with
  | O => ret EmptyString
  | S k' =>
      c <- choice randbelow population ;;
      rest <- choices population k' ;;
      ret (String c rest)
  end.

(** [generate_element_value] (lines 59-67). *)
Definition generate_element_value : M rng string :=
  value_type <- choice randbelow ["name"; "status"; "category"]%string ;;
  if String.eqb value_type "name" then
    first <- choices ascii_uppercase 1 ;;
    k <- randint randbelow 4 8 ;;
    rest <- choices ascii_lowercase (Z.to_nat k) ;;
    ret (first ++ rest)%string
  else if String.eqb value_type "status" then
    choice randbelow ["active"; "inactive"; "pending"; "damaged"; "new"]%string
  else
    choice randbelow ["residential"; "commercial"; "industrial"; "public"; "private"]%string.

(** The loader's state: the generator, the batches handed to [executemany]
    so far, and the rows reported to the progress bar. *)
Record loader : Type := mkLoader {
  gen : rng;
  inserted : list (list row);
  pbar : Z
}.

Definition with_rng {A} (m : M rng A) : M loader A :=
  fun s => let (r, g') := m (gen s) in (r, mkLoader g' (inserted s) (pbar s)).

(** [cursor.executemany(..., data); conn.commit(); pbar.update(n)] *)
Definition flush (data : list row) (n : Z) : M loader unit :=
  fun s =>
    if insert_ok (List.length (inserted s))
    then (inr tt, mkLoader (gen s) (inserted s ++ [data]) (pbar s + n))
    else (inl DatabaseError, s).

Definition batch_size : Z := 1000.

(** The body of [for i in range(NUM_ROWS)] (lines 99-121); every branch has
    the same tiles and every tile the same elements. *)
Definition insert_one (data_to_insert : list row) : M loader (list row) :=
  branch_v <- with_rng (choice randbelow BRANCHES) ;;
  tile_v <- with_rng (choice randbelow all_tiles) ;;
  element_v <- with_rng (choice randbelow all_elements) ;;
  tsver_v <- with_rng (randint randbelow (START_TIME END_TIME) END_TIME) ;;
  element_value_v <- with_rng generate_element_value ;;
  let element_md5_v := generate_md5 md5_hexdigest element_value_v in
  let data := data_to_insert ++ [mkRow branch_v tile_v element_v tsver_v
                                       element_value_v element_md5_v] in
  if (batch_size <=? len data)
  then flush data batch_size ;;; ret []
  else ret data.

Fixpoint insert_rows (n : nat) (data_to_insert : list row) : M loader (list row) :=
  match n with
  | O => ret data_to_insert
  | S n' =>
      data <- insert_one data_to_insert ;;
      insert_rows n' data
  end.

(** [insert_data] (lines 95-129): the loop, then the remaining records. *)
Definition insert_data : M loader unit :=
  data <- insert_rows (Z.to_nat NUM_ROWS) [] ;;
  match data with
  | [] => ret tt
  | _ => flush data (len data)
  end.

End Loader.

End MapInsert.

(** ** Further concrete scenarios *)

Module MoreScenarios.

(** aurora-map-bench.py [main]: level 2 collects one sample per task, every
    call of level 1 fails; each run takes 10 s. *)
Definition two_levels (c : Z) : MapBenchMain.level_env :=
  if (c =? 2)%Z
  then MapBenchMain.mkLevel 100 110
         [inr [Scenarios.slow_pool_call]; inr [Scenarios.slow_pool_call]]
  else MapBenchMain.mkLevel 110 120 [inr [Scenarios.failing_query_call]].

Definition fresh_process : MapBenchMain.world :=
  MapBenchMain.mkWorld MapBenchMain.PoolAbsent [].

(** aurora-map-query-bench2.py: a worker whose second query fails. *)
Definition stumbling_worker : QueryBench2.worker_env :=
  QueryBench2.mkWorker true
    [QueryBench2.mkQuery "t001" 1739769029270 (1 # 100) (Some 5%Z);
     QueryBench2.mkQuery "t002" 1739769029270 (2 # 100) None;
     QueryBench2.mkQuery "t003" 1739769029270 (3 # 100) (Some 7%Z)].

Definition stumbling_run : QueryBench2.run_env :=
  QueryBench2.mkRun (fun _ => stumbling_worker) 1.

(** Three results, the last two with the same, largest throughput. *)
Definition tied_results : list QueryBench2.stats :=
  [QueryBench2.mkStats 4 40 4 0 0 0 0 0;
   QueryBench2.mkStats 8 90 9 0 0 0 0 0;
   QueryBench2.mkStats 12 90 9 0 0 0 0 0].



End MoreScenarios.

(** * Facts about the runtime model *)

Section PyFacts.

Lemma insert_sorted_perm (x : Q) (l : list Q) :
  Permutation (insert_sorted x l) (x :: l).
Proof.
  induction l as [|y l IH]; simpl.
  - apply Permutation_refl.
  - destruct (Qlt_le_dec x y).
    + apply Permutation_refl.
    + eapply perm_trans; [apply perm_skip, IH | apply perm_swap].
Qed.

Lemma insert_sorted_HdRel (a x : Q) (l : list Q) :
  (a <= x)%Q -> HdRel Qle a l -> HdRel Qle a (insert_sorted x l).
Proof.
  intros Hax Hl. destruct l as [|y l]; simpl.
  - constructor. exact Hax.
  - destruct (Qlt_le_dec x y); constructor.
    + exact Hax.
    + inversion Hl; assumption.
Qed.

Lemma insert_sorted_Sorted (x : Q) (l : list Q) :
  Sorted Qle l -> Sorted Qle (insert_sorted x l).
Proof.
  induction 1 as [|y l Hs IH Hhd]; simpl.
  - repeat constructor.
  - destruct (Qlt_le_dec x y) as [Hlt|Hle].
    + constructor.
      * constructor; assumption.
      * constructor. apply Qlt_le_weak. exact Hlt.
    + constructor.
      * exact IH.
      * apply insert_sorted_HdRel; assumption.
Qed.

Lemma sorted_fold_perm (l acc : list Q) :
  Permutation (fold_left (fun a x => insert_sorted x a) l acc) (acc ++ l).
Proof.
  revert acc. induction l as [|x l IH]; intros acc; simpl.
  - rewrite app_nil_r. apply Permutation_refl.
  - eapply perm_trans; [apply IH|].
    eapply perm_trans.
    + apply Permutation_app_tail, insert_sorted_perm.
    + simpl. apply Permutation_middle.
Qed.

Lemma sorted_perm (l : list Q) : Permutation (sorted l) l.
Proof. unfold sorted. apply (sorted_fold_perm l []). Qed.

Lemma sorted_fold_Sorted (l acc : list Q) :
  Sorted Qle acc -> Sorted Qle (fold_left (fun a x => insert_sorted x a) l acc).
Proof.
  revert acc. induction l as [|x l IH]; intros acc Hacc; simpl.
  - exact Hacc.
  - apply IH, insert_sorted_Sorted, Hacc.
Qed.

Lemma sorted_Sorted (l : list Q) : Sorted Qle (sorted l).
Proof. unfold sorted. apply sorted_fold_Sorted. constructor. Qed.

Lemma sorted_length (l : list Q) : List.length (sorted l) = List.length l.
Proof. apply Permutation_length, sorted_perm. Qed.

Lemma len_sorted (l : list Q) : len (sorted l) = len l.
Proof. unfold len. rewrite sorted_length. reflexivity. Qed.

Lemma len_nonneg {A} (l : list A) : (0 <= len l)%Z.
Proof. unfold len. lia. Qed.

Lemma len_cons {A} (a : A) (l : list A) : len (a :: l) = (len l + 1)%Z.
Proof. unfold len. simpl List.length. lia. Qed.

Lemma len_map {A B} (f : A -> B) (l : list A) : len (map f l) = len l.
Proof. unfold len. rewrite length_map. reflexivity. Qed.

(** Indexing inside the bounds returns the element [nth] finds. *)
Lemma getitem_in_range {A} (l : list A) (i : Z) (d : A) :
  (0 <= i < len l)%Z -> getitem l i = inr (nth (Z.to_nat i) l d).
Proof.
  intros [H0 Hlt]. unfold getitem.
  destruct (Z.ltb_spec i 0) as [Hneg|_]; [lia|].
  destruct (nth_error l (Z.to_nat i)) as [a|] eqn:E.
  - f_equal. symmetry. apply nth_error_nth. exact E.
  - apply nth_error_None in E. unfold len in Hlt. lia.
Qed.

Lemma int_mul_095_bounds (n : Z) :
  (0 < n)%Z -> (0 <= int_mul_095 n < n)%Z.
Proof.
  intros Hn. unfold int_mul_095. split.
  - apply Z.div_pos; lia.
  - apply Z.div_lt_upper_bound; lia.
Qed.

Lemma truediv_ok (a b : Q) : ~ (b == 0)%Q -> truediv a b = inr (a / b)%Q.
Proof.
  intros Hb. unfold truediv.
  destruct (Qeq_bool b 0) eqn:E; [|reflexivity].
  apply Qeq_bool_iff in E. contradiction.
Qed.

(** [max(l, key=...)] returns an element of [l] whose key bounds all others. *)
Lemma max_by_from_spec {A} (key : A -> Q) (l : list A) (best : A) :
  let m := max_by_from key best l in
  (m = best \/ In m l) /\
  (key best <= key m)%Q /\
  (forall x, In x l -> (key x <= key m)%Q).
Proof.
  revert best. induction l as [|x l IH]; intros best; simpl.
  - repeat split; [left; reflexivity | apply Qle_refl | contradiction].
  - destruct (Qlt_le_dec (key best) (key x)) as [Hlt|Hle].
    + destruct (IH x) as (Hin & Hb & Hall). repeat split.
      * destruct Hin as [->|Hin]; right; [left; reflexivity | right; exact Hin].
      * eapply Qle_trans; [apply Qlt_le_weak, Hlt | exact Hb].
      * intros y [<-|Hy]; [exact Hb | apply Hall, Hy].
    + destruct (IH best) as (Hin & Hb & Hall). repeat split.
      * destruct Hin as [->|Hin]; [left; reflexivity | right; right; exact Hin].
      * exact Hb.
      * intros y [<-|Hy]; [eapply Qle_trans; eassumption | apply Hall, Hy].
Qed.

End PyFacts.

(** * aurora-map-bench.py: query invocation and worker loop *)

Section MapBenchCalls.

Import MapBench.

(** The complete outcome of one call, by cases on what the pool and the
    server do. *)
Lemma execute_query_outcome (env : call_env) (w : world) :
  execute_query env w =
  match getconn_result env with
  | None =>
      (inr None,
       mkWorld (now w + getconn_delay env)
               (pool_log w ++ [EvGetconnFailed])
               (err_log w ++ [PoolError]))
  | Some c =>
      match query_rows env with
      | None =>
          (inr None,
           mkWorld (now w + getconn_delay env + query_delay env + putconn_delay env)
                   ((pool_log w ++ [EvGetconn c]) ++ [EvPutconn c])
                   (err_log w ++ [DatabaseError]))
      | Some n =>
          (inr (Some ((now w + getconn_delay env + query_delay env - now w)%Q, n)),
           mkWorld (now w + getconn_delay env + query_delay env + putconn_delay env)
                   ((pool_log w ++ [EvGetconn c]) ++ [EvPutconn c])
                   (err_log w))
      end
  end.
Proof.
  destruct env as [gd [c|] qd [n|] pd]; reflexivity.
Qed.

(** A call never raises: its result is a tuple or [None]. *)
Lemma execute_query_returns (env : call_env) (w : world) :
  fst (execute_query env w) =
  inr (if call_succeeds env
       then match query_rows env with
            | Some n => Some ((now w + getconn_delay env + query_delay env - now w)%Q, n)
            | None => None
            end
       else None).
Proof.
  rewrite execute_query_outcome. unfold call_succeeds.
  destruct (getconn_result env), (query_rows env); reflexivity.
Qed.

Lemma execute_query_pool_log (env : call_env) (w : world) :
  pool_log (snd (execute_query env w)) = pool_log w ++ pool_calls env.
Proof.
  rewrite execute_query_outcome. unfold pool_calls.
  destruct (getconn_result env) as [c|]; [destruct (query_rows env)|];
    simpl; rewrite <- ?app_assoc; reflexivity.
Qed.

Lemma execute_query_err_log (env : call_env) (w : world) :
  List.length (err_log (snd (execute_query env w))) =
  (List.length (err_log w) + (if call_succeeds env then 0 else 1))%nat.
Proof.
  rewrite execute_query_outcome. unfold call_succeeds.
  destruct (getconn_result env) as [c|]; [destruct (query_rows env)|];
    simpl; rewrite ?length_app; simpl; lia.
Qed.

(** The worker loop visits every iteration whatever the earlier calls did:
    it returns normally, keeps one sample per successful call, logs one
    error per failed call, and the pool sees the calls of all iterations. *)
Lemma worker_loop_outcome (envs : list call_env) :
  forall (results : list sample) (w : world),
  exists (new : list sample) (w' : world),
    worker_loop envs results w = (inr (results ++ new), w') /\
    List.length new = successful_calls envs /\
    pool_log w' = pool_log w ++ flat_map pool_calls envs /\
    List.length (err_log w') = (List.length (err_log w) + failed_calls envs)%nat.
Proof.
  induction envs as [|env envs IH]; intros results w.
  - exists [], w. simpl. rewrite !app_nil_r.
    repeat split; unfold failed_calls; simpl; lia.
  - simpl worker_loop. unfold bind.
    pose proof (execute_query_returns env w) as Hr.
    pose proof (execute_query_pool_log env w) as Hp.
    pose proof (execute_query_err_log env w) as He.
    destruct (execute_query env w) as [r w1]. simpl in Hr, Hp, He. subst r.
    unfold successful_calls, failed_calls. simpl filter.
    destruct (call_succeeds env) eqn:Hs; simpl negb; cbv iota.
    + destruct (query_rows env) as [n|] eqn:Hq.
      * destruct (IH (results ++ [((now w + getconn_delay env + query_delay env - now w)%Q, n)]) w1)
          as (new & w' & Hrun & Hlen & Hpl & Hel).
        exists (((now w + getconn_delay env + query_delay env - now w)%Q, n) :: new), w'.
        rewrite <- app_assoc in Hrun. simpl.
        repeat split.
        -- exact Hrun.
        -- f_equal. exact Hlen.
        -- rewrite Hpl, Hp, <- app_assoc. reflexivity.
        -- rewrite Hel, He. unfold failed_calls. lia.
      * unfold call_succeeds in Hs. rewrite Hq in Hs.
        destruct (getconn_result env); discriminate.
    + destruct (IH results w1) as (new & w' & Hrun & Hlen & Hpl & Hel).
      exists new, w'. simpl.
      repeat split.
      * exact Hrun.
      * exact Hlen.
      * rewrite Hpl, Hp, <- app_assoc. reflexivity.
      * rewrite Hel, He. unfold failed_calls. lia.
Qed.

End MapBenchCalls.

(** * aurora-map-bench.py: the statistics of a run *)

Section MapBenchStats.

Import MapBench.

Variable fsqrt : Q -> Q.

Lemma mean_nonempty (l : list Q) :
  l <> [] -> mean l = inr (sumQ l / inject_Z (len l))%Q.
Proof. destruct l; [congruence | reflexivity]. Qed.

Lemma min_nonempty (l : list Q) : l <> [] -> exists m, Py.min l = inr m.
Proof. destruct l as [|x l]; [congruence | intros _; eexists; reflexivity]. Qed.

Lemma max_nonempty (l : list Q) : l <> [] -> exists m, Py.max l = inr m.
Proof. destruct l as [|x l]; [congruence | intros _; eexists; reflexivity]. Qed.

Lemma median_nonempty (l : list Q) : l <> [] -> exists m, median l = inr m.
Proof.
  intros Hne. unfold median.
  assert (Hpos : (0 < len (sorted l))%Z).
  { rewrite len_sorted. destruct l; [congruence|]. rewrite len_cons.
    pose proof (len_nonneg l). lia. }
  set (n := len (sorted l)) in *.
  destruct (Z.eqb_spec n 0) as [H0|_]; [lia|].
  destruct (Z.eqb_spec (n mod 2) 1) as [Hodd|Heven].
  - rewrite (@getitem_in_range _ (sorted l) (n / 2) 0%Q).
    + eexists; reflexivity.
    + fold n. split; [apply Z.div_pos; lia | apply Z.div_lt_upper_bound; lia].
  - assert (n mod 2 = 0)%Z by (pose proof (Z.mod_pos_bound n 2); lia).
    assert (2 <= n)%Z.
    { destruct (Z.eq_dec n 1) as [E|]; [rewrite E in H; discriminate | lia]. }
    assert (1 <= n / 2)%Z by (apply Z.div_le_lower_bound; lia).
    rewrite (@getitem_in_range _ (sorted l) (n / 2 - 1) 0%Q).
    + rewrite (@getitem_in_range _ (sorted l) (n / 2) 0%Q).
      * eexists; reflexivity.
      * fold n. split; [lia | apply Z.div_lt_upper_bound; lia].
    + fold n. split; [lia|].
      assert (n / 2 < n)%Z by (apply Z.div_lt_upper_bound; lia). lia.
Qed.

(** The 95th percentile of a non-empty list is found inside its bounds. *)
Lemma p95_nonempty (l : list Q) :
  l <> [] ->
  getitem (sorted l) (int_mul_095 (len l)) =
  inr (nth (Z.to_nat (int_mul_095 (len l))) (sorted l) 0%Q).
Proof.
  intros Hne. apply getitem_in_range. rewrite len_sorted.
  apply int_mul_095_bounds.
  destruct l; [congruence|]. rewrite len_cons. pose proof (len_nonneg l). lia.
Qed.

(** The [try]/[except] around [stdev] always yields a number. *)
Lemma stddev_or_zero_total (l : list Q) :
  exists sd, stddev_or_zero fsqrt l = inr sd.
Proof.
  unfold stddev_or_zero, stdev.
  destruct (len l <? 2)%Z; eexists; reflexivity.
Qed.


(** With at least one sample and a clock that moved, the statistics are
    computed without an exception, field by field as follows. *)
Lemma compute_stats_nonempty (c : Z) (tt : Q) (results : list sample) :
  results <> [] -> ~ (tt == 0)%Q ->
  exists mn mx med sd,
    stddev_or_zero fsqrt (map fst results) = inr sd /\
    compute_stats fsqrt c tt results =
    inr (Some (mkStats c (len results) tt (inject_Z (len results) / tt)%Q
                       mn mx
                       (sumQ (map fst results) / inject_Z (len (map fst results)))%Q
                       med
                       (nth (Z.to_nat (int_mul_095 (len (map fst results))))
                            (sorted (map fst results)) 0%Q)
                       (sumZ (map snd results))
                       (sumQ (map inject_Z (map snd results))
                        / inject_Z (len (map inject_Z (map snd results))))%Q
                       sd)).
Proof.
  intros Hne Htt.
  assert (Htimes : map fst results <> []) by (destruct results; simpl; congruence).
  assert (Hrows : map inject_Z (map snd results) <> [])
    by (destruct results; simpl; congruence).
  destruct (min_nonempty Htimes) as [mn Hmn].
  destruct (max_nonempty Htimes) as [mx Hmx].
  destruct (median_nonempty Htimes) as [med Hmed].
  destruct (stddev_or_zero_total (map fst results)) as [sd Hsd].
  exists mn, mx, med, sd. split; [exact Hsd|].
  unfold compute_stats.
  destruct results as [|s results']; [congruence|].
  rewrite (truediv_ok _ Htt), Hmn, Hmx, (mean_nonempty Htimes), Hmed,
          (p95_nonempty Htimes), (mean_nonempty Hrows), Hsd.
  reflexivity.
Qed.

Lemma compute_stats_empty (c : Z) (tt : Q) :
  compute_stats fsqrt c tt [] = inr None.
Proof. reflexivity. Qed.

End MapBenchStats.

(** * aurora-map-query-bench2.py: workers and runner *)

Section QueryBench2Run.

Import QueryBench2.

(** One iteration: a failing query raises after the server's delay; an
    answered one puts its record on the queue and counts itself. *)
Lemma query_once_outcome (tid : Z) (q : query_env) (fr : frame) :
  query_once tid q fr =
  match q_rows q with
  | None => (inl DatabaseError, mkFrame (query_count fr) (tick (q_delay q) (outer fr)))
  | Some n =>
      (inr tt,
       mkFrame (query_count fr + 1)
               (queue_put (mkQResult tid (now (outer fr) + q_delay q - now (outer fr))%Q
                                     n (q_tile q) (q_max_tsver q))
                          (tick (q_delay q) (outer fr))))
  end.
Proof. destruct q as [t m d [n|]]; reflexivity. Qed.

(** The [while] loop of a worker: it prints nothing, and every query it
    counts has put exactly one record on the queue. *)
Lemma worker_loop_counts (tid : Z) (qs : list query_env) :
  forall fr : frame,
  exists r fr' added,
    for_each qs (query_once tid) fr = (r, fr') /\
    stdout (outer fr') = stdout (outer fr) /\
    results_queue (outer fr') = results_queue (outer fr) ++ added /\
    query_count fr' = (query_count fr + len added)%Z /\
    Forall (fun rec => exists q, In q qs /\ query_time rec == q_delay q
                                 /\ q_rows q = Some (result_count rec)) added.
Proof.
  induction qs as [|q qs IH]; intros fr.
  - exists (inr tt), fr, []. simpl. rewrite app_nil_r.
    repeat split; [unfold len; simpl; lia | constructor].
  - simpl for_each. unfold bind. rewrite query_once_outcome.
    destruct (q_rows q) as [n|] eqn:Hq.
    + set (rec0 := mkQResult tid (now (outer fr) + q_delay q - now (outer fr))%Q
                             n (q_tile q) (q_max_tsver q)).
      destruct (IH (mkFrame (query_count fr + 1)
                            (queue_put rec0 (tick (q_delay q) (outer fr)))))
        as (r & fr' & added & Hrun & Hout & Hqueue & Hcount & Hall).
      simpl in Hout, Hqueue, Hcount.
      exists r, fr', (rec0 :: added).
      repeat split.
      * exact Hrun.
      * exact Hout.
      * rewrite Hqueue, <- app_assoc. reflexivity.
      * rewrite Hcount, len_cons. lia.
      * constructor.
        -- exists q. subst rec0. simpl.
           repeat split; [left; reflexivity | ring | exact Hq].
        -- eapply Forall_impl; [|exact Hall].
           intros rec (q' & Hin & Ht & Hr). exists q'.
           repeat split; auto. right; exact Hin.
    + eexists _, _, []. repeat split; simpl.
      * rewrite app_nil_r. reflexivity.
      * unfold len; simpl; lia.
      * constructor.
Qed.

(** A worker that got its connection always returns its count, also when a
    query raised inside the loop. *)
Lemma execute_query_connected (tid : Z) (env : worker_env) (w : world) :
  connect_ok env = true ->
  exists n elapsed w' added,
    execute_query tid env w = (inr (n, elapsed), w') /\
    n = len added /\
    results_queue w' = results_queue w ++ added /\
    level_marks (stdout w') = level_marks (stdout w) /\
    Forall (fun rec => exists q, In q (iterations env) /\ query_time rec == q_delay q
                                 /\ q_rows q = Some (result_count rec)) added.
Proof.
  intros Hc. unfold execute_query. rewrite Hc. simpl negb. cbv iota.
  unfold try_finally, try_except.
  destruct (worker_loop_counts tid (iterations env) (mkFrame 0 w))
    as (r & fr' & added & Hrun & Hout & Hqueue & Hcount & Hall).
  rewrite Hrun. simpl in Hout, Hqueue, Hcount.
  destruct r as [e|[]]; simpl.
  - eexists _, _, _, added. split; [reflexivity|].
    repeat split; simpl; auto.
    unfold level_marks. rewrite Hout, filter_app. simpl. apply app_nil_r.
  - eexists _, _, _, added. split; [reflexivity|].
    repeat split; simpl; auto.
    rewrite Hout. reflexivity.
Qed.

(** A worker whose connection fails raises out of [execute_query]. *)
Lemma execute_query_unconnected (tid : Z) (env : worker_env) (w : world) :
  connect_ok env = false -> execute_query tid env w = (inl DatabaseError, w).
Proof. intros Hc. unfold execute_query. rewrite Hc. reflexivity. Qed.

(** When every thread connects, every future holds a count and the counts add
    up to the number of records on the queue. *)
Lemma submit_all_connected (t0 : Q) (env : run_env) (tids : list Z) :
  (forall i, In i tids -> connect_ok (worker_of env i) = true) ->
  forall w : world,
  exists thread_results w' added,
    submit_all t0 env tids w = (map inr thread_results, w') /\
    results_queue w' = results_queue w ++ added /\
    sumZ (map fst thread_results) = len added /\
    level_marks (stdout w') = level_marks (stdout w).
Proof.
  induction tids as [|i tids IH]; intros Hall w.
  - exists [], w, []. simpl. rewrite app_nil_r. repeat split.
  - simpl submit_all.
    destruct (@execute_query_connected i (worker_of env i)
                (mkWorld t0 (results_queue w) (stdout w)))
      as (n & el & w1 & added1 & Hrun & Hn & Hq1 & Hm1 & _).
    { apply Hall. left; reflexivity. }
    rewrite Hrun.
    destruct (IH (fun j Hj => Hall j (or_intror Hj)) w1)
      as (trs & w2 & added2 & Hrun2 & Hq2 & Hsum & Hm2).
    rewrite Hrun2.
    exists ((n, el) :: trs), w2, (added1 ++ added2). simpl in *.
    repeat split.
    + rewrite Hq2, Hq1, app_assoc. reflexivity.
    + unfold sumZ in *. simpl.
      assert (Hshift : forall l a, fold_left Z.add l a = (a + fold_left Z.add l 0)%Z).
      { clear. induction l as [|x l IHl]; intros a; simpl; [lia|].
        rewrite (IHl (a + x)%Z), (IHl x). lia. }
      rewrite Hshift, Hsum, Hn. unfold len. rewrite length_app. lia.
    + rewrite Hm2, Hm1. reflexivity.
Qed.

Lemma results_of_all_inr {A} (l : list A) : results_of (map inr l) = inr l.
Proof. induction l as [|a l IH]; simpl; [|rewrite IH]; reflexivity. Qed.

End QueryBench2Run.

Section QueryBench2Stats.

Import QueryBench2.

(** The [stats] dict is always built when the duration is not zero; an empty
    queue gives the fallback value 0 in every latency field. *)
Lemma bench2_compute_stats_total (c : Z) (d : Q) (tq : Z) (drained : list qresult) :
  ~ (d == 0)%Q ->
  exists avg mn mx avgrc,
    compute_stats c d tq drained =
    inr (mkStats c tq (inject_Z tq / d)%Q avg mn mx
           (if (20 <=? len drained)%Z
            then nth (Z.to_nat (int_mul_095 (len drained)))
                     (sorted (map query_time drained)) 0%Q
            else 0%Q)
           avgrc) /\
    (drained = [] -> avg = 0%Q /\ mn = 0%Q /\ mx = 0%Q /\ avgrc = 0%Q).
Proof.
  intros Hd. unfold compute_stats. rewrite (truediv_ok _ Hd). simpl rbind.
  destruct drained as [|r0 drained'].
  - exists 0%Q, 0%Q, 0%Q, 0%Q. split; [reflexivity | auto].
  - set (drained := r0 :: drained').
    assert (Ht : map query_time drained <> []) by (subst drained; simpl; congruence).
    assert (Hr : map inject_Z (map result_count drained) <> [])
      by (subst drained; simpl; congruence).
    destruct (min_nonempty Ht) as [mn Hmn].
    destruct (max_nonempty Ht) as [mx Hmx].
    exists (sumQ (map query_time drained) / inject_Z (len (map query_time drained)))%Q,
           mn, mx,
           (sumQ (map inject_Z (map result_count drained))
            / inject_Z (len (map inject_Z (map result_count drained))))%Q.
    split; [|subst drained; discriminate].
    replace (mean_or_zero (map query_time drained)) with (mean (map query_time drained))
      by (subst drained; reflexivity).
    replace (min_or_zero (map query_time drained)) with (Py.min (map query_time drained))
      by (subst drained; reflexivity).
    replace (max_or_zero (map query_time drained)) with (Py.max (map query_time drained))
      by (subst drained; reflexivity).
    replace (mean_or_zero (map inject_Z (map result_count drained)))
      with (mean (map inject_Z (map result_count drained)))
      by (subst drained; reflexivity).
    rewrite (mean_nonempty Ht), Hmn, Hmx, (mean_nonempty Hr).
    cbv beta iota delta [rbind].
    unfold p95_or_zero. rewrite (p95_nonempty Ht), !len_map.
    destruct (20 <=? len drained)%Z; reflexivity.
Qed.

(** With a positive level, a positive duration and every thread connected,
    [run_benchmark] returns the stats of the records the threads queued, the
    clock has moved by the duration plus the wait for the workers, and one
    start line was printed. *)
Lemma bench2_run_benchmark_connected (c : Z) (d : Q) (env : run_env) (w : world) :
  (0 < c)%Z -> (0 < d)%Q ->
  (forall i, connect_ok (worker_of env i) = true) ->
  exists st w' drained,
    run_benchmark c d env w = (inr st, w') /\
    compute_stats c d (len drained) drained = inr st /\
    now w' = (now w + d + join_tail env)%Q /\
    results_queue w' = [] /\
    level_marks (stdout w') = level_marks (stdout w) ++ [PStartBenchmark c d].
Proof.
  intros Hc Hd Hconn. unfold run_benchmark.
  destruct (Z.leb_spec c 0) as [Hle|_]; [lia|].
  set (w2 := mkWorld (now (print (PStartBenchmark c d) w)) []
                     (stdout (print (PStartBenchmark c d) w))).
  destruct (@submit_all_connected (now w2) env (range c) (fun i _ => Hconn i) w2)
    as (trs & w3 & added & Hrun & Hq & Hsum & Hmarks).
  rewrite Hrun.
  destruct (Qlt_le_dec d 0) as [Hneg|_].
  { exfalso. apply (Qlt_irrefl d). eapply Qlt_trans; eassumption. }
  rewrite results_of_all_inr. simpl results_queue. simpl now.
  simpl in Hq. rewrite Hq, Hsum.
  assert (Hd0 : ~ (d == 0)%Q).
  { intros E. rewrite E in Hd. apply (Qlt_irrefl 0), Hd. }
  destruct (@bench2_compute_stats_total c d (len added) added Hd0)
    as (avg & mn & mx & avgrc & Hstats & _).
  eexists _, _, added. rewrite Hstats.
  repeat split.
  simpl. rewrite Hmarks. subst w2. simpl.
  unfold level_marks. rewrite filter_app. reflexivity.
Qed.

End QueryBench2Stats.

(** * Claims on the query invocation of aurora-map-bench.py *)

Section MapBenchClaims.

Import MapBench.

(** C7. Along every path of [execute_query] the pool sees, after what it had
    seen before, exactly [getconn] followed by one [putconn] of the same
    connection when the acquisition succeeded (whether the query then
    returned or raised), and only the failed [getconn], with no [putconn],
    when the acquisition failed. *)
Theorem C7_putconn_exactly_once_per_getconn (env : call_env) (w : world) :
  pool_log (snd (execute_query env w)) =
  pool_log w ++ match getconn_result env with
                | Some c => [EvGetconn c; EvPutconn c]
                | None => [EvGetconnFailed]
                end.
Proof. apply execute_query_pool_log. Qed.

(** On success the returned time is the time spent in [getconn] plus the
    time spent in the query; the release is not counted. *)
Lemma execute_query_latency (env : call_env) (w : world) (c : conn) (n : Z) :
  getconn_result env = Some c -> query_rows env = Some n ->
  exists t, fst (execute_query env w) = inr (Some (t, n)) /\
            (t == getconn_delay env + query_delay env)%Q.
Proof.
  intros Hc Hn. rewrite execute_query_outcome, Hc, Hn. simpl.
  eexists. split; [reflexivity | ring].
Qed.

(** C5. [execute_query] of aurora-map-bench.py reads [start_time] before
    [getconn()]: with a pool that takes 5 s and a query that takes 1 s, the
    recorded latency is 6 s and not the 1 s round trip. *)
Theorem C5_latency_includes_pool_acquisition :
  exists t n,
    fst (execute_query Scenarios.slow_pool_call Scenarios.thread_start)
    = inr (Some (t, n)) /\
    (t == 6)%Q /\
    (query_delay Scenarios.slow_pool_call == 1)%Q /\
    ~ (t == query_delay Scenarios.slow_pool_call)%Q.
Proof.
  eexists _, _. split; [vm_compute; reflexivity|].
  repeat split; try reflexivity. intros H. vm_compute in H. discriminate.
Qed.

(** Two workers that differ in the number of failed calls and return the
    same samples. *)
Lemma worker_task_hides_failures :
  let quiet := [Scenarios.slow_pool_call] in
  let noisy := [Scenarios.slow_pool_call; Scenarios.failing_query_call] in
  failed_calls quiet <> failed_calls noisy /\
  fst (worker_task quiet Scenarios.thread_start)
  = fst (worker_task noisy Scenarios.thread_start).
Proof. split; [vm_compute; discriminate | vm_compute; reflexivity]. Qed.

(** C6, as stated, fails: no count of failed samples is kept.  A run with one
    failed sample and a run with none return the same worker results and the
    same statistics. *)
Lemma C6_counterexample_no_failed_count :
  let quiet := [Scenarios.slow_pool_call] in
  let noisy := [Scenarios.slow_pool_call; Scenarios.failing_query_call] in
  failed_calls quiet = 0%nat /\ failed_calls noisy = 1%nat /\
  fst (worker_task quiet Scenarios.thread_start)
  = fst (worker_task noisy Scenarios.thread_start) /\
  run_benchmark_cohort Scenarios.newton_sqrt 1 1 100 110 [inr quiet]
  = run_benchmark_cohort Scenarios.newton_sqrt 1 2 100 110 [inr noisy] /\
  run_benchmark_cohort Scenarios.newton_sqrt 1 1 100 110 [inr quiet] <> inr None.
Proof.
  repeat split; try (vm_compute; reflexivity). vm_compute. discriminate.
Qed.

(** C6, amended. A call never raises: a backend error makes it return [None].
    The worker loop then goes on with the remaining iterations and returns
    normally; its result holds one sample per successful call, so failed
    samples never reach the statistics; every failed call is written to the
    error log, and that log is the only trace of it: the returned samples
    carry no count of failures. *)
Theorem C6_failed_calls_skipped_and_logged (envs : list call_env) (w : world) :
  (forall env w0, exists r, fst (execute_query env w0) = inr r /\
                            (call_succeeds env = false -> r = None)) /\
  (exists results w',
     worker_task envs w = (inr results, w') /\
     List.length results = successful_calls envs /\
     pool_log w' = pool_log w ++ flat_map pool_calls envs /\
     List.length (err_log w') = (List.length (err_log w) + failed_calls envs)%nat) /\
  (exists envs1 envs2 w0,
     failed_calls envs1 <> failed_calls envs2 /\
     fst (worker_task envs1 w0) = fst (worker_task envs2 w0)).
Proof.
  split; [|split].
  - intros env w0. rewrite execute_query_returns. eexists. split; [reflexivity|].
    intros Hs. rewrite Hs. reflexivity.
  - destruct (worker_loop_outcome envs [] w) as (new & w' & Hrun & Hlen & Hp & He).
    exists new, w'. unfold worker_task. rewrite Hrun. simpl. auto.
  - destruct worker_task_hides_failures as [Hne Heq].
    eexists _, _, _. split; [exact Hne | exact Heq].
Qed.

End MapBenchClaims.

(** * Runs of aurora-map-query-bench2.py that record no sample *)

Section QueryBench2NoSample.

Import QueryBench2.

Lemma execute_query_no_sample (tid : Z) (env : worker_env) (w : world) :
  connect_ok env = true -> no_sample env ->
  exists elapsed w',
    execute_query tid env w = (inr (0%Z, elapsed), w') /\
    results_queue w' = results_queue w.
Proof.
  intros Hc Hno. unfold execute_query. rewrite Hc. simpl negb. cbv iota.
  unfold no_sample in Hno. unfold try_finally, try_except.
  destruct (iterations env) as [|q qs].
  - simpl. eexists _, _. split; reflexivity.
  - simpl for_each. unfold bind. rewrite query_once_outcome, Hno. simpl.
    eexists _, _. split; reflexivity.
Qed.

Lemma submit_all_no_sample (t0 : Q) (env : run_env) (tids : list Z) :
  (forall i, connect_ok (worker_of env i) = true /\ no_sample (worker_of env i)) ->
  forall w : world,
  exists thread_results w',
    submit_all t0 env tids w = (map inr thread_results, w') /\
    results_queue w' = results_queue w /\
    sumZ (map fst thread_results) = 0%Z.
Proof.
  intros Hall. induction tids as [|i tids IH]; intros w.
  - exists [], w. repeat split.
  - simpl submit_all.
    destruct (Hall i) as [Hc Hno].
    destruct (@execute_query_no_sample i (worker_of env i)
                (mkWorld t0 (results_queue w) (stdout w)) Hc Hno)
      as (el & w1 & Hrun & Hq1).
    rewrite Hrun.
    destruct (IH w1) as (trs & w2 & Hrun2 & Hq2 & Hsum).
    rewrite Hrun2.
    exists ((0%Z, el) :: trs), w2. simpl in *.
    repeat split.
    + rewrite Hq2, Hq1. reflexivity.
    + exact Hsum.
Qed.

(** When no worker records a sample, whether it tried a query or not, the
    stats hold a zero count and the fallback 0 in every latency field. *)
Lemma run_benchmark_no_sample (c : Z) (d : Q) (env : run_env) (w : world) :
  (0 < c)%Z -> (0 < d)%Q ->
  (forall i, connect_ok (worker_of env i) = true /\ no_sample (worker_of env i)) ->
  fst (run_benchmark c d env w) =
  inr (mkStats c 0 (inject_Z 0 / d)%Q 0%Q 0%Q 0%Q 0%Q 0%Q).
Proof.
  intros Hc Hd Hall. unfold run_benchmark.
  destruct (Z.leb_spec c 0) as [Hle|_]; [lia|].
  set (w2 := mkWorld (now (print (PStartBenchmark c d) w)) []
                     (stdout (print (PStartBenchmark c d) w))).
  destruct (@submit_all_no_sample (now w2) env (range c) Hall w2)
    as (trs & w3 & Hrun & Hq & Hsum).
  rewrite Hrun.
  destruct (Qlt_le_dec d 0) as [Hneg|_].
  { exfalso. apply (Qlt_irrefl d). eapply Qlt_trans; eassumption. }
  rewrite results_of_all_inr. simpl results_queue.
  simpl in Hq. rewrite Hq, Hsum.
  unfold compute_stats. rewrite truediv_ok; [reflexivity|].
  intros E. rewrite E in Hd. apply (Qlt_irrefl 0), Hd.
Qed.

End QueryBench2NoSample.

(** * Claims on the statistics *)

Section StatsClaims.

Variable fsqrt : Q -> Q.

(** C1, as stated, fails for aurora-map-query-bench2.py: the run below is
    configured for 10 s, takes 12 s of wall clock, completes 6 queries and
    reports 6/10 queries per second instead of 6/12. *)
Lemma C1_counterexample_configured_duration :
  exists st w',
    QueryBench2.run_benchmark 2 10 Scenarios.steady_run Scenarios.idle = (inr st, w') /\
    (QueryBench2.now w' - QueryBench2.now Scenarios.idle == 12)%Q /\
    QueryBench2.total_queries st = 6%Z /\
    (QueryBench2.queries_per_second st == 6 / 10)%Q /\
    ~ (QueryBench2.queries_per_second st ==
       inject_Z (QueryBench2.total_queries st)
       / (QueryBench2.now w' - QueryBench2.now Scenarios.idle))%Q.
Proof.
  eexists _, _. split; [vm_compute; reflexivity|].
  repeat split; try reflexivity. intros H. vm_compute in H. discriminate.
Qed.

(** C1, amended. In aurora-map-bench.py a run that collected at least one
    sample returns stats whose [total_time] is the difference of the two
    clock readings around the run and whose [queries_per_second] is
    [total_queries / total_time] (so 500 queries in 10 s give 50).  In
    aurora-map-query-bench2.py [queries_per_second] is [total_queries]
    divided by the configured duration, while the wall clock moves by the
    duration plus the wait for the workers. *)
Theorem C1_queries_per_second_formula
    (c qpt : Z) (t0 t1 : Q) (futures : list (res (list MapBench.sample)))
    (d : Q) (env : QueryBench2.run_env) (w : QueryBench2.world) :
  (0 < c)%Z -> (t0 < t1)%Q -> MapBench.collect futures <> [] ->
  (0 < d)%Q -> (forall i, QueryBench2.connect_ok (QueryBench2.worker_of env i) = true) ->
  (exists st,
     MapBench.run_benchmark fsqrt c qpt t0 t1 futures = inr (Some st) /\
     MapBench.total_queries st = len (MapBench.collect futures) /\
     MapBench.total_time st = (t1 - t0)%Q /\
     (MapBench.queries_per_second st ==
      inject_Z (MapBench.total_queries st) / MapBench.total_time st)%Q /\
     (MapBench.total_queries st = 500%Z -> (MapBench.total_time st == 10)%Q ->
      (MapBench.queries_per_second st == 50)%Q)) /\
  (exists st w',
     QueryBench2.run_benchmark c d env w = (inr st, w') /\
     (QueryBench2.queries_per_second st ==
      inject_Z (QueryBench2.total_queries st) / d)%Q /\
     (QueryBench2.now w' - QueryBench2.now w == d + QueryBench2.join_tail env)%Q).
Proof.
  intros Hc Ht Hne Hd Hconn. split.
  - unfold MapBench.run_benchmark.
    destruct (Z.leb_spec c 0) as [Hle|_]; [lia|].
    assert (Htt : ~ (t1 - t0 == 0)%Q) by (intros E; lra).
    destruct (@compute_stats_nonempty fsqrt c (t1 - t0)%Q _ Hne Htt)
      as (mn & mx & med & sd & _ & Hstats).
    rewrite Hstats. eexists. split; [reflexivity|]. simpl.
    split; [reflexivity|]. split; [reflexivity|]. split; [reflexivity|].
    intros Hn Htime. rewrite Hn, Htime. reflexivity.
  - destruct (@bench2_run_benchmark_connected c d env w Hc Hd Hconn)
      as (st & w' & drained & Hrun & Hstats & Hnow & _ & _).
    exists st, w'. split; [exact Hrun|].
    assert (Hd0 : ~ (d == 0)%Q) by (intros E; lra).
    destruct (@bench2_compute_stats_total c d (len drained) drained Hd0)
      as (avg & mn & mx & avgrc & Hst & _).
    rewrite Hst in Hstats. injection Hstats as <-. simpl.
    split; [reflexivity|]. rewrite Hnow. ring.
Qed.

(** C2, as stated, fails.  In aurora-map-bench.py twenty samples 1..20 give
    p95 = 20, the element at index 19 of the sorted list (the largest one),
    not the element at index 18.  In aurora-map-query-bench2.py a single
    sample of 10 ms gives p95 = 0, not that sample. *)
Lemma C2_counterexample_index_19_and_small_sets :
  (exists st,
     MapBench.compute_stats Scenarios.newton_sqrt 1 20 Scenarios.twenty_samples
     = inr (Some st) /\
     (MapBench.p95_time st == 20)%Q /\
     (nth 19 (sorted (map fst Scenarios.twenty_samples)) 0 == 20)%Q /\
     (nth 18 (sorted (map fst Scenarios.twenty_samples)) 0 == 19)%Q /\
     ~ (MapBench.p95_time st
        == nth 18 (sorted (map fst Scenarios.twenty_samples)) 0)%Q) /\
  (exists st,
     QueryBench2.compute_stats 1 10 1
       [QueryBench2.mkQResult 0 (1 # 100) 5 "t001" 1739769029270]
     = inr st /\
     (QueryBench2.p95_query_time st == 0)%Q /\
     ~ (QueryBench2.p95_query_time st == 1 # 100)%Q).
Proof.
  split.
  - eexists. split; [vm_compute; reflexivity|].
    repeat split; try reflexivity. intros H. vm_compute in H. discriminate.
  - eexists. split; [vm_compute; reflexivity|].
    split; [reflexivity|]. intros H. vm_compute in H. discriminate.
Qed.

(** C2, amended. In aurora-map-bench.py the p95 of [n >= 1] samples is the
    element at 0-based index [floor(95 n / 100)] of the samples sorted
    ascending, an index inside the list, with no interpolation; for [n = 20]
    it is index 19, the largest sample.  In aurora-map-query-bench2.py the
    same element is reported when [n >= 20], and 0 when [n < 20]. *)
Theorem C2_p95_is_sorted_element
    (c : Z) (tt : Q) (results : list MapBench.sample)
    (d : Q) (tq : Z) (drained : list QueryBench2.qresult) :
  results <> [] -> ~ (tt == 0)%Q -> ~ (d == 0)%Q ->
  let times := map fst results in
  let n := len times in
  (exists st,
     MapBench.compute_stats fsqrt c tt results = inr (Some st) /\
     MapBench.p95_time st = nth (Z.to_nat (95 * n / 100)) (sorted times) 0%Q /\
     (0 <= 95 * n / 100 < n)%Z /\
     Sorted Qle (sorted times) /\
     Permutation (sorted times) times /\
     (n = 20%Z -> (95 * n / 100 = 19)%Z)) /\
  (exists st,
     QueryBench2.compute_stats c d tq drained = inr st /\
     QueryBench2.p95_query_time st =
     if (20 <=? len drained)%Z
     then nth (Z.to_nat (95 * len drained / 100))
              (sorted (map QueryBench2.query_time drained)) 0%Q
     else 0%Q).
Proof.
  intros Hne Htt Hd times n. split.
  - destruct (@compute_stats_nonempty fsqrt c tt results Hne Htt)
      as (mn & mx & med & sd & _ & Hstats).
    rewrite Hstats. eexists. split; [reflexivity|]. simpl.
    split; [reflexivity|].
    split.
    { apply int_mul_095_bounds. subst n times. rewrite len_map.
      destruct results; [congruence|]. rewrite len_cons. unfold len. lia. }
    split; [apply sorted_Sorted|].
    split; [apply sorted_perm|].
    intros ->. reflexivity.
  - destruct (@bench2_compute_stats_total c d tq drained Hd)
      as (avg & mn & mx & avgrc & Hst & _).
    rewrite Hst. eexists. split; reflexivity.
Qed.

(** C3, as stated, fails for aurora-map-bench.py: when every attempted
    sample failed, [run_benchmark] returns [None], no stats with zeros; and
    it returns the same [None] when the workers attempted nothing. *)
Lemma C3_counterexample_no_stats_when_all_failed :
  MapBench.run_benchmark_cohort Scenarios.newton_sqrt 2 1 100 110
    [inr [Scenarios.failing_query_call]; inr [Scenarios.exhausted_pool_call]]
  = inr None /\
  MapBench.run_benchmark_cohort Scenarios.newton_sqrt 2 0 100 110 [inr []; inr []]
  = inr None.
Proof. split; vm_compute; reflexivity. Qed.

(** C3, amended. With no successful sample, [run_benchmark] of
    aurora-map-bench.py returns [None] without raising, and
    [run_benchmark] of aurora-map-query-bench2.py returns stats whose
    average, minimum, maximum and p95 latency and average row count are 0
    (it has no median or stddev field).  Neither keeps a count of attempted
    samples: the result is the same whether the workers tried and failed
    or tried nothing. *)
Theorem C3_empty_sample_set
    (c qpt : Z) (t0 t1 : Q) (futures : list (res (list MapBench.sample)))
    (d : Q) (env : QueryBench2.run_env) (w : QueryBench2.world) :
  (0 < c)%Z -> MapBench.collect futures = [] -> (0 < d)%Q ->
  (forall i, QueryBench2.connect_ok (QueryBench2.worker_of env i) = true /\
             QueryBench2.no_sample (QueryBench2.worker_of env i)) ->
  MapBench.run_benchmark fsqrt c qpt t0 t1 futures = inr None /\
  fst (QueryBench2.run_benchmark c d env w) =
  inr (QueryBench2.mkStats c 0 (inject_Z 0 / d)%Q 0%Q 0%Q 0%Q 0%Q 0%Q).
Proof.
  intros Hc Hempty Hd Hall. split.
  - unfold MapBench.run_benchmark.
    destruct (Z.leb_spec c 0) as [Hle|_]; [lia|].
    rewrite Hempty. reflexivity.
  - apply run_benchmark_no_sample; assumption.
Qed.


End StatsClaims.

(** * The sweep of aurora-map-query-bench2.py *)

Section Sweep.

Import QueryBench2.

Lemma arith_seq_Sorted (a step : Z) (k start : nat) :
  (0 < step)%Z ->
  Sorted Z.lt (map (fun i => (a + Z.of_nat i * step)%Z) (seq start k)).
Proof.
  intros Hs. revert start. induction k as [|k IH]; intros start; cbn [seq map].
  - constructor.
  - constructor; [apply IH|].
    destruct k; cbn [seq map]; constructor.
    rewrite Nat2Z.inj_succ. nia.
Qed.

(** [range(step, max + 1, step)] with a positive step: the multiples of
    [step] up to [max], in ascending order. *)
Lemma range3_levels (max_c step : Z) :
  (1 <= step)%Z ->
  exists levels,
    range3 step (max_c + 1) step = inr levels /\
    Sorted Z.lt levels /\
    (forall c, In c levels <->
               exists j, (1 <= j)%Z /\ c = (j * step)%Z /\ (c <= max_c)%Z).
Proof.
  intros Hs. unfold range3.
  destruct (Z.eqb_spec step 0) as [E|_]; [lia|].
  eexists. split; [reflexivity|]. split; [apply arith_seq_Sorted; lia|].
  intros c. rewrite in_map_iff. unfold range_len.
  destruct (Z.ltb_spec 0 step) as [_|Hbad]; [|lia].
  destruct (Z.ltb_spec step (max_c + 1)) as [Hlt|Hge].
  - assert (Hq : (0 <= (max_c + 1 - step - 1) / step)%Z) by (apply Z.div_pos; lia).
    split.
    + intros (i & Hc & Hin). apply in_seq in Hin.
      exists (Z.of_nat i + 1)%Z. split; [lia|]. split; [lia|].
      assert (Hi : (Z.of_nat i <= (max_c + 1 - step - 1) / step)%Z) by lia.
      assert (Hm : (step * ((max_c + 1 - step - 1) / step) <= max_c + 1 - step - 1)%Z)
        by (apply Z.mul_div_le; lia).
      nia.
    + intros (j & Hj & Hc & Hmax).
      exists (Z.to_nat (j - 1)). split; [rewrite Z2Nat.id; lia|].
      apply in_seq. split; [lia|]. simpl.
      assert (Hdiv : (j - 1 <= (max_c + 1 - step - 1) / step)%Z)
        by (apply Z.div_le_lower_bound; nia).
      lia.
  - split.
    + intros (i & _ & Hin). simpl in Hin. contradiction.
    + intros (j & Hj & Hc & Hmax). exfalso. nia.
Qed.

Lemma for_each_print (A : Type) (f : A -> line) (l : list A) (w : world) :
  for_each l (fun a => modify (print (f a))) w =
  (inr tt, mkWorld (now w) (results_queue w) (stdout w ++ map f l)).
Proof.
  revert w. induction l as [|a l IH]; intros w; simpl.
  - rewrite app_nil_r. destruct w; reflexivity.
  - unfold bind, modify at 1. rewrite IH. simpl.
    rewrite <- app_assoc. reflexivity.
Qed.

(** The loop over the levels runs one benchmark per level, in the order of
    the list, each one finished (its result line printed) before the next
    one starts. *)
Lemma escalate_connected (d : Q) (env_of : Z -> run_env) (levels : list Z) :
  (0 < d)%Q -> Forall (fun c => (0 < c)%Z) levels ->
  (forall c i, connect_ok (worker_of (env_of c) i) = true) ->
  forall (results : list stats) (w : world),
  exists sts w',
    escalate levels d env_of results w = (inr (results ++ sts), w') /\
    map concurrency sts = levels /\
    level_marks (stdout w') =
    level_marks (stdout w) ++ flat_map (level_lines d) levels.
Proof.
  intros Hd Hpos Hconn. induction Hpos as [|c levels Hc Hpos IH]; intros results w.
  - exists [], w. simpl. rewrite !app_nil_r. repeat split.
  - simpl escalate. unfold bind at 1.
    destruct (@bench2_run_benchmark_connected c d (env_of c) w Hc Hd (Hconn c))
      as (st & w1 & drained & Hrun & Hstats & _ & _ & Hmarks).
    rewrite Hrun. unfold bind, modify.
    assert (Hd0 : ~ (d == 0)%Q) by (intros E; lra).
    destruct (@bench2_compute_stats_total c d (len drained) drained Hd0)
      as (avg & mn & mx & avgrc & Hst & _).
    rewrite Hst in Hstats. injection Hstats as Hstv.
    destruct (IH (results ++ [st]) (print (PLevelResults c) w1))
      as (sts & w' & Hrun' & Hmap & Hmarks').
    exists (st :: sts), w'. split; [|split].
    + rewrite Hrun', <- app_assoc. reflexivity.
    + simpl. rewrite Hmap, <- Hstv. reflexivity.
    + rewrite Hmarks'. simpl stdout. unfold level_marks at 1.
      rewrite filter_app. fold (level_marks (stdout w1)). rewrite Hmarks.
      simpl. rewrite <- !app_assoc. reflexivity.
Qed.

(** [print_summary] on a non-empty list prints the rows and then the result
    with the largest throughput. *)
Lemma print_summary_optimal (results : list stats) (w : world) :
  results <> [] ->
  exists opt w',
    print_summary results w = (inr tt, w') /\
    In opt results /\
    (forall st, In st results -> (queries_per_second st <= queries_per_second opt)%Q) /\
    stdout w' = stdout w ++ map (fun st => PSummaryRow (concurrency st)) results
                         ++ [POptimal (concurrency opt) (queries_per_second opt)].
Proof.
  intros Hne. destruct results as [|r0 rest]; [congruence|].
  unfold print_summary, bind. rewrite for_each_print.
  unfold lift, max_by, modify.
  destruct (max_by_from_spec queries_per_second rest r0) as (Hin & Hb & Hall).
  exists (max_by_from queries_per_second r0 rest). eexists.
  split; [reflexivity|]. split; [|split].
  - destruct Hin as [->|Hin]; [left; reflexivity | right; exact Hin].
  - intros st [<-|Hst]; [exact Hb | apply Hall, Hst].
  - simpl. rewrite <- app_assoc. reflexivity.
Qed.


(** A thread without a connection makes [run_benchmark] raise, whatever the
    other threads did. *)
Lemma run_benchmark_first_thread_unconnected
    (c : Z) (d : Q) (env : run_env) (w : world) :
  (0 < c)%Z -> (0 <= d)%Q -> connect_ok (worker_of env 0%Z) = false ->
  fst (run_benchmark c d env w) = inl DatabaseError.
Proof.
  intros Hc Hd Hconn. unfold run_benchmark.
  destruct (Z.leb_spec c 0) as [Hle|_]; [lia|].
  unfold range. destruct (Z.to_nat c) as [|k] eqn:Hk; [lia|].
  simpl seq. simpl map. simpl submit_all.
  rewrite execute_query_unconnected by exact Hconn.
  match goal with |- context [submit_all ?t ?e ?l ?x] =>
    destruct (submit_all t e l x) as [rs w2] end.
  destruct (Qlt_le_dec d 0) as [Hneg|_]; [lra|].
  reflexivity.
Qed.

(** C9. In aurora-map-query-bench2.py a thread that cannot connect makes the
    whole run raise: with thread 0 unconnected and thread 1 having queued
    three samples, [run_benchmark] ends with the database error and returns
    no stats. *)
Theorem C9_unconnected_thread_aborts_run :
  exists w',
    run_benchmark 2 10 Scenarios.one_unconnected_run Scenarios.idle
    = (inl DatabaseError, w') /\
    len (results_queue w') = 3%Z.
Proof. eexists. split; vm_compute; reflexivity. Qed.

End Sweep.

(** In aurora-map-bench.py a future that raises is skipped and the samples
    of the other tasks are all collected. *)
Lemma collect_skips_failed_task
    (e : exn) (before after : list (res (list MapBench.sample))) :
  MapBench.collect (before ++ inl e :: after) = MapBench.collect (before ++ after).
Proof.
  unfold MapBench.collect. rewrite !fold_left_app. reflexivity.
Qed.

(** * The batch loader of aurora-map-insertmany.py *)

Section LoaderFacts.

Import MapInsertMany.
Local Open Scope Z_scope.

Variable rng : Type.
Variable randbelow : Z -> rng -> Z * rng.

(** [random._randbelow(n)] returns a number in [0, n). *)
Hypothesis randbelow_range :
  forall n g, 0 < n -> 0 <= fst (randbelow n g) < n.

Variable md5_hexdigest : string -> string.
Variable END_TIME : Z.
Variable random_words : list string.
Variables NUM_ROWS BATCH_SIZE NUM_WORKERS : Z.

Lemma choice_nonempty (A : Type) (l : list A) (g : rng) :
  l <> [] -> exists a g', choice randbelow l g = (inr a, g').
Proof.
  intros Hne. unfold choice. destruct l as [|x l]; [congruence|].
  pose proof (@randbelow_range (len (x :: l)) g) as Hr.
  destruct (randbelow (len (x :: l)) g) as [i g']. simpl in Hr.
  rewrite (@getitem_in_range _ (x :: l) i x).
  - eexists _, _. reflexivity.
  - apply Hr. rewrite len_cons. unfold len. lia.
Qed.

Lemma randint_ordered (a b : Z) (g : rng) :
  a <= b -> exists v g', randint randbelow a b g = (inr v, g').
Proof.
  intros Hab. unfold randint. destruct (Z.ltb_spec b a); [lia|].
  destruct (randbelow (b - a + 1) g). eexists _, _. reflexivity.
Qed.



Lemma all_tiles_nonempty : all_tiles <> [].
Proof. vm_compute. discriminate. Qed.

Lemma all_elements_nonempty : all_elements <> [].
Proof. vm_compute. discriminate. Qed.




Lemma sumZ_shift (l : list Z) (a : Z) : fold_left Z.add l a = a + sumZ l.
Proof.
  unfold sumZ. revert a. induction l as [|x l IH]; intros a; simpl; [lia|].
  rewrite (IH (a + x)), (IH x). lia.
Qed.




End LoaderFacts.

(** * The statements above on concrete runs *)

Section Witnesses.

Local Open Scope Q_scope.

(** One task returned a single sample and one task raised; the run took 10 s.
    In the other script every worker completes three queries in a 10 s step. *)
Lemma C1_queries_per_second_formula_witness :
  (0 < 2)%Z /\ 0 < 10 /\
  MapBench.collect [inr [(1, 3%Z)]; inl DatabaseError] <> [] /\
  (exists st,
     MapBench.run_benchmark Scenarios.newton_sqrt 2 3 0 10
       [inr [(1, 3%Z)]; inl DatabaseError] = inr (Some st) /\
     MapBench.queries_per_second st
     == inject_Z (MapBench.total_queries st) / MapBench.total_time st) /\
  (exists st w',
     QueryBench2.run_benchmark 2 10 Scenarios.steady_run Scenarios.idle = (inr st, w') /\
     QueryBench2.queries_per_second st == inject_Z (QueryBench2.total_queries st) / 10).
Proof.
  assert (H1 : (0 < 2)%Z) by lia.
  assert (H2 : 0 < 10) by reflexivity.
  assert (H3 : MapBench.collect [inr [(1, 3%Z)]; inl DatabaseError] <> [])
    by (vm_compute; discriminate).
  assert (H4 : forall i, QueryBench2.connect_ok
                           (QueryBench2.worker_of Scenarios.steady_run i) = true)
    by (intros i; reflexivity).
  destruct (@C1_queries_per_second_formula Scenarios.newton_sqrt 2 3 0 10
              [inr [(1, 3%Z)]; inl DatabaseError] 10 Scenarios.steady_run
              Scenarios.idle H1 H2 H3 H2 H4)
    as [(st & Hrun & _ & _ & Hqps & _) (st2 & w' & Hrun2 & Hqps2 & _)].
  repeat split; try assumption.
  - exists st. split; assumption.
  - exists st2, w'. split; assumption.
Defined.

Lemma C2_p95_is_sorted_element_witness :
  Scenarios.twenty_samples <> [] /\ ~ 20 == 0 /\ ~ 10 == 0 /\
  exists st,
    MapBench.compute_stats Scenarios.newton_sqrt 1 20 Scenarios.twenty_samples
    = inr (Some st) /\
    MapBench.p95_time st
    = nth 19 (sorted (map fst Scenarios.twenty_samples)) 0.
Proof.
  assert (H1 : Scenarios.twenty_samples <> []) by (vm_compute; discriminate).
  assert (H2 : ~ 20 == 0) by (vm_compute; discriminate).
  assert (H3 : ~ 10 == 0) by (vm_compute; discriminate).
  destruct (@C2_p95_is_sorted_element Scenarios.newton_sqrt 1 20
              Scenarios.twenty_samples 10 0 [] H1 H2 H3)
    as [(st & Hrun & Hp95 & _) _].
  repeat split; try assumption.
  exists st. split; [exact Hrun | exact Hp95].
Defined.

Lemma C3_empty_sample_set_witness :
  (0 < 2)%Z /\
  MapBench.collect [inr []; inl DatabaseError] = [] /\
  0 < 10 /\
  MapBench.run_benchmark Scenarios.newton_sqrt 2 1 100 110 [inr []; inl DatabaseError]
  = inr None /\
  fst (QueryBench2.run_benchmark 2 10
         (QueryBench2.mkRun (fun _ => Scenarios.failing_worker) 2) Scenarios.idle)
  = inr (QueryBench2.mkStats 2 0 (inject_Z 0 / 10) 0 0 0 0 0).
Proof.
  assert (H1 : (0 < 2)%Z) by lia.
  assert (H2 : MapBench.collect [inr []; inl DatabaseError] = []) by reflexivity.
  assert (H3 : 0 < 10) by reflexivity.
  assert (H4 : forall i,
             QueryBench2.connect_ok
               (QueryBench2.worker_of
                  (QueryBench2.mkRun (fun _ => Scenarios.failing_worker) 2) i) = true /\
             QueryBench2.no_sample
               (QueryBench2.worker_of
                  (QueryBench2.mkRun (fun _ => Scenarios.failing_worker) 2) i))
    by (intros i; split; reflexivity).
  destruct (@C3_empty_sample_set Scenarios.newton_sqrt 2 1 100 110
              [inr []; inl DatabaseError] 10
              (QueryBench2.mkRun (fun _ => Scenarios.failing_worker) 2)
              Scenarios.idle H1 H2 H3 H4) as [Ha Hb].
  repeat split; assumption.
Defined.




End Witnesses.

(** * Further properties of aurora-map-bench.py *)

Section MapBenchStatsOrder.

Import MapBench.

Variable fsqrt : Q -> Q.

Lemma min_from_spec (l : list Q) (best : Q) :
  (min_from best l <= best)%Q /\
  Forall (fun x => (min_from best l <= x)%Q) l /\
  (min_from best l = best \/ In (min_from best l) l).
Proof.
  revert best. induction l as [|x l IH]; intros best; simpl.
  - split; [apply Qle_refl|]. split; [constructor | left; reflexivity].
  - destruct (Qlt_le_dec x best) as [Hlt|Hle].
    + destruct (IH x) as (Hb & Hall & Hin). split; [|split].
      * eapply Qle_trans; [exact Hb | apply Qlt_le_weak, Hlt].
      * constructor; assumption.
      * right. destruct Hin as [->|Hin]; [left; reflexivity | right; exact Hin].
    + destruct (IH best) as (Hb & Hall & Hin). split; [exact Hb|]. split.
      * constructor; [eapply Qle_trans; eassumption | exact Hall].
      * destruct Hin as [Heq|Hin]; [left; exact Heq | right; right; exact Hin].
Qed.

Lemma max_from_spec (l : list Q) (best : Q) :
  (best <= max_from best l)%Q /\
  Forall (fun x => (x <= max_from best l)%Q) l /\
  (max_from best l = best \/ In (max_from best l) l).
Proof.
  revert best. induction l as [|x l IH]; intros best; simpl.
  - split; [apply Qle_refl|]. split; [constructor | left; reflexivity].
  - destruct (Qlt_le_dec best x) as [Hlt|Hle].
    + destruct (IH x) as (Hb & Hall & Hin). split; [|split].
      * eapply Qle_trans; [apply Qlt_le_weak, Hlt | exact Hb].
      * constructor; assumption.
      * right. destruct Hin as [->|Hin]; [left; reflexivity | right; exact Hin].
    + destruct (IH best) as (Hb & Hall & Hin). split; [exact Hb|]. split.
      * constructor; [eapply Qle_trans; eassumption | exact Hall].
      * destruct Hin as [Heq|Hin]; [left; exact Heq | right; right; exact Hin].
Qed.

(** [min] and [max] of a list bound every element of it. *)
Lemma min_max_bounds (l : list Q) (mn mx : Q) :
  Py.min l = inr mn -> Py.max l = inr mx ->
  Forall (fun x => (mn <= x)%Q /\ (x <= mx)%Q) l.
Proof.
  destruct l as [|x l]; [discriminate|]. simpl.
  intros Hmn Hmx. injection Hmn as <-. injection Hmx as <-.
  destruct (min_from_spec l x) as (Hb & Hall & _).
  destruct (max_from_spec l x) as (Hb' & Hall' & _).
  constructor; [split; assumption|].
  rewrite Forall_forall in *. intros y Hy. split; auto.
Qed.

Lemma fold_Qplus_bounds (lo hi : Q) (l : list Q) :
  Forall (fun x => (lo <= x)%Q /\ (x <= hi)%Q) l ->
  forall a : Q,
    (a + lo * inject_Z (len l) <= fold_left Qplus l a)%Q /\
    (fold_left Qplus l a <= a + hi * inject_Z (len l))%Q.
Proof.
  induction 1 as [|x l [Hlo Hhi] _ IH]; intros a; cbn [fold_left].
  - change (inject_Z (len (@nil Q))) with 0%Q. split; lra.
  - destruct (IH (a + x)%Q) as [H1 H2].
    rewrite len_cons, inject_Z_plus. change (inject_Z 1) with 1%Q.
    split; [eapply Qle_trans; [|exact H1] | eapply Qle_trans; [exact H2|]]; lra.
Qed.

Lemma mean_between (lo hi : Q) (l : list Q) :
  l <> [] -> Forall (fun x => (lo <= x)%Q /\ (x <= hi)%Q) l ->
  (lo <= sumQ l / inject_Z (len l))%Q /\ (sumQ l / inject_Z (len l) <= hi)%Q.
Proof.
  intros Hne Hall.
  assert (Hn : (0 < inject_Z (len l))%Q).
  { destruct l; [congruence|]. rewrite len_cons.
    change 0%Q with (inject_Z 0). rewrite <- Zlt_Qlt. unfold len. lia. }
  destruct (fold_Qplus_bounds Hall 0%Q) as [H1 H2]. fold (sumQ l) in H1, H2.
  split.
  - apply Qle_shift_div_l; [exact Hn | lra].
  - apply Qle_shift_div_r; [exact Hn | lra].
Qed.

Lemma sorted_element (l : list Q) (i : Z) (x : Q) :
  getitem (sorted l) i = inr x -> In x l.
Proof.
  unfold getitem. destruct (i <? 0)%Z; [discriminate|].
  destruct (nth_error (sorted l) (Z.to_nat i)) as [a|] eqn:E; [|discriminate].
  intros H. injection H as <-.
  apply (Permutation_in a (sorted_perm l)). eapply nth_error_In, E.
Qed.

Lemma median_between (lo hi : Q) (l : list Q) (med : Q) :
  Forall (fun x => (lo <= x)%Q /\ (x <= hi)%Q) l ->
  median l = inr med -> (lo <= med)%Q /\ (med <= hi)%Q.
Proof.
  intros Hall. rewrite Forall_forall in Hall. unfold median.
  destruct (len (sorted l) =? 0)%Z; [discriminate|].
  destruct (len (sorted l) mod 2 =? 1)%Z.
  - intros H. apply Hall. eapply sorted_element, H.
  - destruct (getitem (sorted l) (len (sorted l) / 2 - 1)) as [|a] eqn:Ea; [discriminate|].
    destruct (getitem (sorted l) (len (sorted l) / 2)) as [|b] eqn:Eb; [discriminate|].
    simpl. intros H. injection H as <-.
    destruct (Hall a (sorted_element _ _ Ea)), (Hall b (sorted_element _ _ Eb)).
    split.
    + apply Qle_shift_div_l; lra.
    + apply Qle_shift_div_r; lra.
Qed.

(** Every latency figure of the stats lies between [min_time] and
    [max_time]: the average, the median and the 95th percentile. *)
Theorem stats_between_min_and_max (c : Z) (tt : Q) (results : list sample) :
  results <> [] -> ~ (tt == 0)%Q ->
  exists st,
    compute_stats fsqrt c tt results = inr (Some st) /\
    (min_time st <= avg_time st <= max_time st)%Q /\
    (min_time st <= median_time st <= max_time st)%Q /\
    (min_time st <= p95_time st <= max_time st)%Q /\
    Forall (fun s => (min_time st <= fst s <= max_time st)%Q) results.
Proof.
  intros Hne Htt.
  assert (Htimes : map fst results <> []) by (destruct results; simpl; congruence).
  assert (Hrows : map inject_Z (map snd results) <> [])
    by (destruct results; simpl; congruence).
  destruct (min_nonempty Htimes) as [mn Hmn].
  destruct (max_nonempty Htimes) as [mx Hmx].
  destruct (median_nonempty Htimes) as [med Hmed].
  destruct (stddev_or_zero_total fsqrt (map fst results)) as [sd Hsd].
  pose proof (min_max_bounds _ Hmn Hmx) as Hall.
  eexists. split.
  - unfold compute_stats. destruct results as [|s results']; [congruence|].
    rewrite (truediv_ok _ Htt), Hmn, Hmx, (mean_nonempty Htimes), Hmed,
            (p95_nonempty Htimes), (mean_nonempty Hrows), Hsd.
    reflexivity.
  - simpl. split; [apply mean_between; assumption|].
    split; [eapply median_between; eassumption|].
    split.
    + pose proof (p95_nonempty Htimes) as Hp.
      apply sorted_element in Hp. rewrite Forall_forall in Hall. apply Hall, Hp.
    + rewrite Forall_forall in *. intros s Hs. apply Hall, in_map, Hs.
Qed.

(** When the two clock readings around the run coincide and at least one
    sample was collected, the division for [queries_per_second] raises. *)
Theorem run_benchmark_zero_elapsed_time
    (c qpt : Z) (t0 t1 : Q) (futures : list (res (list sample))) :
  (0 < c)%Z -> (t1 == t0)%Q -> collect futures <> [] ->
  run_benchmark fsqrt c qpt t0 t1 futures = inl ZeroDivisionError.
Proof.
  intros Hc Ht Hne. unfold run_benchmark.
  destruct (Z.leb_spec c 0) as [Hle|_]; [lia|].
  unfold compute_stats. destruct (collect futures) as [|s rest]; [congruence|].
  unfold truediv.
  assert (E : Qeq_bool (t1 - t0) 0 = true) by (apply Qeq_bool_iff; lra).
  rewrite E. reflexivity.
Qed.

End MapBenchStatsOrder.

Section MapBenchCohort.

Import MapBench.

Variable fsqrt : Q -> Q.

Local Open Scope Z_scope.

Lemma sumZ_cons (x : Z) (l : list Z) : sumZ (x :: l) = x + sumZ l.
Proof. unfold sumZ at 1. simpl. apply sumZ_shift. Qed.

Lemma collect_fold_len (futures : list (res (list sample))) (acc : list sample) :
  len (fold_left (fun results fut =>
                    match fut with
                    | inr task_results => results ++ task_results
                    | inl _ => results
                    end) futures acc)
  = len acc + sumZ (map (fun f => match f with inr l => len l | inl _ => 0 end) futures).
Proof.
  revert acc. induction futures as [|f futures IH]; intros acc; simpl.
  - unfold sumZ. simpl. lia.
  - rewrite IH, sumZ_cons. destruct f as [e|l]; [lia|].
    unfold len. rewrite length_app. lia.
Qed.

(** A task that returns hands back one sample per successful call. *)
Lemma future_result_returns (t0 : Q) (envs : list call_env) :
  exists results,
    future_result t0 (inr envs) = inr results /\
    List.length results = successful_calls envs.
Proof.
  destruct (worker_loop_outcome envs [] (mkWorld t0 [] []))
    as (new & w' & Hrun & Hlen & _).
  exists new. unfold future_result, worker_task. rewrite Hrun. split; [reflexivity | exact Hlen].
Qed.

Lemma successful_calls_le (envs : list call_env) :
  (successful_calls envs <= List.length envs)%nat.
Proof. unfold successful_calls. apply filter_length_le. Qed.

Lemma cohort_samples_len (t0 : Q) (tasks : list task_env) :
  len (collect (map (future_result t0) tasks))
  = sumZ (map (fun te => match te with
                         | inr envs => Z.of_nat (successful_calls envs)
                         | inl _ => 0
                         end) tasks).
Proof.
  unfold collect. rewrite collect_fold_len. change (len (@nil sample)) with 0.
  rewrite Z.add_0_l, map_map. f_equal. apply map_ext. intros [e|envs].
  - reflexivity.
  - destruct (future_result_returns t0 envs) as (results & -> & Hlen).
    unfold len. rewrite Hlen. reflexivity.
Qed.

Lemma sum_bounded (A : Type) (f : A -> Z) (b : Z) (l : list A) :
  Forall (fun a => 0 <= f a <= b) l -> 0 <= sumZ (map f l) <= len l * b.
Proof.
  induction 1 as [|a l Ha _ IH]; simpl map.
  - unfold sumZ, len. simpl. lia.
  - rewrite sumZ_cons, len_cons. lia.
Qed.

(** [total_queries] counts the successful calls of the tasks that returned:
    it never exceeds [concurrency * queries_per_thread], and when no call
    succeeded the run returns [None]. *)
Theorem cohort_total_queries
    (c qpt : Z) (t0 t1 : Q) (tasks : list task_env) :
  0 < c -> 0 <= qpt -> (t0 < t1)%Q -> len tasks = c ->
  Forall (fun te => match te with inr envs => len envs = qpt | inl _ => True end) tasks ->
  let successes := sumZ (map (fun te => match te with
                                        | inr envs => Z.of_nat (successful_calls envs)
                                        | inl _ => 0
                                        end) tasks) in
  match run_benchmark_cohort fsqrt c qpt t0 t1 tasks with
  | inr (Some st) => total_queries st = successes /\ 0 < successes <= c * qpt
  | inr None => successes = 0
  | inl _ => False
  end.
Proof.
  intros Hc Hq Ht Hlen Hall successes.
  assert (Hsum : len (collect (map (future_result t0) tasks)) = successes)
    by apply cohort_samples_len.
  assert (Hbound : 0 <= successes <= c * qpt).
  { subst successes. rewrite <- Hlen. apply sum_bounded.
    eapply Forall_impl; [|exact Hall]. intros [e|envs]; [lia|].
    intros <-. pose proof (successful_calls_le envs). unfold len. lia. }
  unfold run_benchmark_cohort, run_benchmark.
  destruct (Z.leb_spec c 0) as [Hle|_]; [lia|].
  destruct (collect (map (future_result t0) tasks)) as [|s rest] eqn:Hres.
  - simpl. rewrite <- Hsum. reflexivity.
  - assert (Hne : s :: rest <> []) by discriminate.
    assert (Htt : ~ (t1 - t0 == 0)%Q) by (intros E; lra).
    destruct (@compute_stats_nonempty fsqrt c (t1 - t0)%Q _ Hne Htt)
      as (mn & mx & med & sd & _ & Hstats).
    rewrite Hstats. simpl. split; [exact Hsum|].
    rewrite <- Hsum in *. rewrite len_cons in *. unfold len in *. lia.
Qed.

End MapBenchCohort.

(** * aurora-map-bench.py: [main] *)

Section MapBenchMainFacts.

Import MapBench MapBenchMain.

Variable fsqrt : Q -> Q.

Lemma max_int_from_spec (l : list Z) (best : Z) :
  (best <= max_int_from best l)%Z /\
  Forall (fun x => (x <= max_int_from best l)%Z) l.
Proof.
  revert best. induction l as [|x l IH]; intros best; simpl.
  - split; [lia | constructor].
  - destruct (Z.ltb_spec best x) as [Hlt|Hle].
    + destruct (IH x) as [Hb Hall]. split; [lia|]. constructor; assumption.
    + destruct (IH best) as [Hb Hall]. split; [exact Hb|]. constructor; [lia | exact Hall].
Qed.

Lemma effective_pool_size_spec (requested : Z) (levels : list Z) :
  levels <> [] ->
  exists p,
    effective_pool_size requested levels = inr p /\
    (requested <= p)%Z /\
    Forall (fun c => (c <= p)%Z) levels.
Proof.
  intros Hne. destruct levels as [|c0 rest]; [congruence|].
  unfold effective_pool_size, max_int. simpl rbind.
  destruct (max_int_from_spec rest c0) as [Hb Hall].
  eexists. split; [reflexivity|].
  destruct (Z.ltb_spec requested (max_int_from c0 rest)) as [Hlt|Hle].
  - split; [lia|]. constructor; assumption.
  - split; [lia|]. constructor; [lia|].
    eapply Forall_impl; [|exact Hall]. intros x Hx. simpl in Hx. lia.
Qed.

(** The pool is at least as large as the requested size and as every
    concurrency level of the command line. *)
Theorem pool_size_covers_every_level (requested : Z) (levels : list Z) :
  levels <> [] ->
  exists p,
    effective_pool_size requested levels = inr p /\
    (requested <= p)%Z /\
    Forall (fun c => (c <= p)%Z) levels.
Proof. apply effective_pool_size_spec. Qed.

Lemma level_outcome (env_of : Z -> level_env) (queries c : Z) :
  runnable env_of c ->
  exists r,
    run_benchmark_cohort fsqrt c queries (lv_start (env_of c)) (lv_end (env_of c))
                         (lv_tasks (env_of c)) = inr r /\
    match r with
    | Some st => has_sample env_of c = true /\ concurrency st = c
    | None => has_sample env_of c = false
    end.
Proof.
  intros [Hc Ht]. unfold run_benchmark_cohort, run_benchmark, has_sample.
  destruct (Z.leb_spec c 0) as [Hle|_]; [lia|].
  destruct (collect (map (future_result (lv_start (env_of c))) (lv_tasks (env_of c))))
    as [|s rest] eqn:Hres.
  - exists None. split; reflexivity.
  - assert (Hne : s :: rest <> []) by discriminate.
    assert (Htt : ~ (lv_end (env_of c) - lv_start (env_of c) == 0)%Q) by (intros E; lra).
    destruct (@compute_stats_nonempty fsqrt c _ _ Hne Htt)
      as (mn & mx & med & sd & _ & Hstats).
    rewrite Hstats. eexists. split; [reflexivity|]. split; reflexivity.
Qed.

(** The loop runs the runnable levels in the order given, keeps the stats of
    those that collected a sample and prints their result block; the pool
    is untouched. *)
Lemma level_loop_runnable (env_of : Z -> level_env) (queries : Z)
    (levels rest : list Z) :
  Forall (runnable env_of) levels ->
  forall (acc : list stats) (w : world),
  exists sts w',
    level_loop fsqrt (levels ++ rest) queries env_of acc w
    = level_loop fsqrt rest queries env_of (acc ++ sts) w' /\
    map concurrency sts = filter (has_sample env_of) levels /\
    out w' = out w ++ map PrintResults (filter (has_sample env_of) levels) /\
    pool w' = pool w.
Proof.
  induction 1 as [|c levels Hc _ IH]; intros acc w.
  - exists [], w. simpl. rewrite !app_nil_r. repeat split.
  - simpl app. simpl level_loop. unfold bind at 1, lift.
    destruct (level_outcome queries Hc) as (r & -> & Hr).
    destruct r as [st|].
    + destruct Hr as [Hs Hconc]. unfold bind at 1, print, modify.
      destruct (IH (acc ++ [st]) (mkWorld (pool w) (out w ++ [PrintResults (concurrency st)])))
        as (sts & w' & Hrun & Hmap & Hout & Hpool).
      exists (st :: sts), w'. simpl filter. rewrite Hs. simpl.
      split; [rewrite Hrun, <- app_assoc; reflexivity|].
      split; [rewrite Hmap, Hconc; reflexivity|].
      split; [rewrite Hout, Hconc; simpl; rewrite <- app_assoc; reflexivity | exact Hpool].
    + destruct (IH acc w) as (sts & w' & Hrun & Hmap & Hout & Hpool).
      exists sts, w'. simpl filter. rewrite Hr.
      split; [exact Hrun|]. split; [exact Hmap|]. split; [exact Hout | exact Hpool].
Qed.



(** A level with a non-positive thread count makes [run_benchmark] raise:
    the levels after it are not run, no comparison is printed, the failure
    is logged, and the pool, opened before, is never closed. *)
Theorem main_aborts_on_bad_level
    (requested queries c : Z) (before after : list Z)
    (env_of : Z -> level_env) (w : world) :
  Forall (runnable env_of) before -> (c <= 0)%Z ->
  exists p w',
    main fsqrt true requested (before ++ c :: after) queries env_of w = (inr tt, w') /\
    pool w' = PoolOpen p /\
    out w' = out w ++ map PrintResults (filter (has_sample env_of) before)
                   ++ [LogBenchmarkFailed ValueError].
Proof.
  intros Hall Hc.
  assert (Hne : before ++ c :: after <> []) by (destruct before; discriminate).
  destruct (effective_pool_size_spec requested Hne) as (p & Hp & _).
  unfold main, bind at 1, lift. rewrite Hp.
  unfold try_except, main_try. unfold bind at 1, modify at 1.
  destruct (@level_loop_runnable env_of queries before (c :: after) Hall []
              (mkWorld (PoolOpen p) (out w)))
    as (sts & w1 & Hrun & Hmap & Hout & Hpool).
  simpl in Hout, Hpool.
  unfold bind at 1. rewrite Hrun.
  simpl level_loop. unfold bind at 1, lift.
  unfold run_benchmark_cohort, run_benchmark.
  destruct (Z.leb_spec c 0) as [_|Hpos]; [|lia].
  unfold print, modify. exists p. eexists. split; [reflexivity|]. simpl.
  split; [exact Hpool|]. rewrite Hout, <- app_assoc. reflexivity.
Qed.

End MapBenchMainFacts.

(** * Further properties of aurora-map-query-bench2.py *)

Section QueryBench2Extra.

Import QueryBench2 QueryBench2Main.

Lemma worker_loop_prefix (tid : Z) (qs : list query_env) :
  forall fr : frame,
  exists fr' added,
    for_each qs (query_once tid) fr
    = ((if has_failure qs then inl DatabaseError else inr tt), fr') /\
    stdout (outer fr') = stdout (outer fr) /\
    results_queue (outer fr') = results_queue (outer fr) ++ added /\
    query_count fr' = (query_count fr + len (answered_prefix qs))%Z /\
    Forall2 (records_query tid) added (answered_prefix qs).
Proof.
  induction qs as [|q qs IH]; intros fr.
  - exists fr, []. simpl. rewrite app_nil_r.
    repeat split; [unfold len; simpl; lia | constructor].
  - simpl for_each. unfold bind. rewrite query_once_outcome.
    simpl has_failure. simpl answered_prefix.
    destruct (q_rows q) as [n|] eqn:Hq.
    + set (rec0 := mkQResult tid (now (outer fr) + q_delay q - now (outer fr))%Q
                             n (q_tile q) (q_max_tsver q)).
      destruct (IH (mkFrame (query_count fr + 1)
                            (queue_put rec0 (tick (q_delay q) (outer fr)))))
        as (fr' & added & Hrun & Hout & Hqueue & Hcount & Hall).
      simpl in Hout, Hqueue, Hcount.
      exists fr', (rec0 :: added). simpl orb.
      split; [exact Hrun|]. split; [exact Hout|].
      split; [rewrite Hqueue, <- app_assoc; reflexivity|].
      split; [rewrite Hcount, len_cons; lia|].
      constructor; [|exact Hall].
      subst rec0. unfold records_query. simpl. repeat split. ring.
    + eexists _, []. simpl. split; [reflexivity|]. split; [reflexivity|].
      rewrite app_nil_r. split; [reflexivity|].
      split; [unfold len; simpl; lia | constructor].
Qed.

Lemma execute_query_answered (tid : Z) (env : worker_env) (w : world) :
  connect_ok env = true ->
  exists elapsed w' added,
    execute_query tid env w
    = (inr (len (answered_prefix (iterations env)), elapsed), w') /\
    results_queue w' = results_queue w ++ added /\
    Forall2 (records_query tid) added (answered_prefix (iterations env)) /\
    stdout w' = stdout w ++ (if has_failure (iterations env)
                             then [PThreadError tid DatabaseError] else []).
Proof.
  intros Hc. unfold execute_query. rewrite Hc. simpl negb. cbv iota.
  unfold try_finally, try_except.
  destruct (worker_loop_prefix tid (iterations env) (mkFrame 0 w))
    as (fr' & added & Hrun & Hout & Hqueue & Hcount & Hall).
  rewrite Hrun. simpl in Hout, Hqueue, Hcount.
  destruct (has_failure (iterations env)); simpl.
  - eexists _, _, added. rewrite Hcount. split; [reflexivity|]. simpl.
    split; [exact Hqueue|]. split; [exact Hall|]. rewrite Hout. reflexivity.
  - eexists _, _, added. rewrite Hcount. split; [reflexivity|].
    split; [exact Hqueue|]. split; [exact Hall|]. rewrite Hout, app_nil_r. reflexivity.
Qed.

(** A connected worker completes the queries before its first failing one
    and no other: it queues one record per such query, carrying the time of
    that query's round trip and its row count, returns their number, and
    prints one error line when a query failed. *)
Theorem worker_stops_at_first_failure (tid : Z) (env : worker_env) (w : world) :
  connect_ok env = true ->
  exists elapsed w' added,
    execute_query tid env w
    = (inr (len (answered_prefix (iterations env)), elapsed), w') /\
    results_queue w' = results_queue w ++ added /\
    Forall2 (records_query tid) added (answered_prefix (iterations env)) /\
    stdout w' = stdout w ++ (if has_failure (iterations env)
                             then [PThreadError tid DatabaseError] else []).
Proof. apply execute_query_answered. Qed.

Lemma submit_all_counts (t0 : Q) (env : run_env) (tids : list Z) :
  (forall i, connect_ok (worker_of env i) = true) ->
  forall w : world,
  exists thread_results w' added,
    submit_all t0 env tids w = (map inr thread_results, w') /\
    results_queue w' = results_queue w ++ added /\
    map fst thread_results
    = map (fun i => len (answered_prefix (iterations (worker_of env i)))) tids /\
    len added = sumZ (map fst thread_results).
Proof.
  intros Hall. induction tids as [|i tids IH]; intros w.
  - exists [], w, []. simpl. rewrite app_nil_r. repeat split.
  - simpl submit_all.
    destruct (@execute_query_answered i (worker_of env i)
                (mkWorld t0 (results_queue w) (stdout w)) (Hall i))
      as (el & w1 & added1 & Hrun & Hq1 & Hrec & _).
    rewrite Hrun.
    destruct (IH w1) as (trs & w2 & added2 & Hrun2 & Hq2 & Hmap & Hsum).
    rewrite Hrun2. eexists (_ :: trs), w2, (added1 ++ added2). simpl in *.
    split; [reflexivity|].
    split; [rewrite Hq2, Hq1, app_assoc; reflexivity|].
    split; [rewrite Hmap; reflexivity|].
    rewrite sumZ_cons, <- Hsum. unfold len. rewrite length_app.
    rewrite (Forall2_length Hrec). cbn [fst]. lia.
Qed.

(** [total_queries] is the number of queries answered before each thread's
    first failure, summed over the threads. *)
Theorem total_queries_counts_answered_queries
    (c : Z) (d : Q) (env : run_env) (w : world) :
  (0 < c)%Z -> (0 < d)%Q ->
  (forall i, connect_ok (worker_of env i) = true) ->
  exists st w',
    run_benchmark c d env w = (inr st, w') /\
    total_queries st
    = sumZ (map (fun i => len (answered_prefix (iterations (worker_of env i))))
                (range c)).
Proof.
  intros Hc Hd Hconn. unfold run_benchmark.
  destruct (Z.leb_spec c 0) as [Hle|_]; [lia|].
  set (w2 := mkWorld (now (print (PStartBenchmark c d) w)) []
                     (stdout (print (PStartBenchmark c d) w))).
  destruct (@submit_all_counts (now w2) env (range c) Hconn w2)
    as (trs & w3 & added & Hrun & Hq & Hmap & Hsum).
  rewrite Hrun.
  destruct (Qlt_le_dec d 0) as [Hneg|_]; [lra|].
  rewrite results_of_all_inr. simpl results_queue.
  assert (Hd0 : ~ (d == 0)%Q) by (intros E; lra).
  destruct (@bench2_compute_stats_total c d (sumZ (map fst trs)) (results_queue w3) Hd0)
    as (avg & mn & mx & avgrc & Hstats & _).
  rewrite Hstats. eexists _, _. split; [reflexivity|]. simpl.
  rewrite Hmap. reflexivity.
Qed.


End QueryBench2Extra.

Section QueryBench2Summary.

Import QueryBench2 QueryBench2Main.

(** [max(..., key=...)] keeps the first of the elements with the largest
    key: everything before it has a strictly smaller key. *)
Lemma max_by_from_first (A : Type) (key : A -> Q) (l : list A) (best : A) :
  let m := max_by_from key best l in
  (m = best /\ Forall (fun x => (key x <= key best)%Q) l) \/
  (exists pre post,
     l = pre ++ m :: post /\ (key best < key m)%Q /\
     Forall (fun x => (key x < key m)%Q) pre /\
     Forall (fun x => (key x <= key m)%Q) post).
Proof.
  revert best. induction l as [|x l IH]; intros best; simpl.
  - left. split; [reflexivity | constructor].
  - destruct (Qlt_le_dec (key best) (key x)) as [Hlt|Hle].
    + right. destruct (IH x) as [[Heq Hall]|(pre & post & Hl & Hk & Hpre & Hpost)].
      * exists [], l. rewrite Heq. simpl. repeat split; auto.
      * exists (x :: pre), post. rewrite Hl at 1. simpl.
        split; [reflexivity|]. split; [eapply Qlt_trans; eassumption|].
        split; [constructor; assumption | exact Hpost].
    + destruct (IH best) as [[Heq Hall]|(pre & post & Hl & Hk & Hpre & Hpost)].
      * left. split; [exact Heq|]. constructor; assumption.
      * right. exists (x :: pre), post. rewrite Hl at 1. simpl.
        split; [reflexivity|]. split; [exact Hk|].
        split; [|exact Hpost].
        constructor; [eapply Qle_lt_trans; eassumption | exact Hpre].
Qed.

(** When several levels reach the largest throughput, [print_summary]
    reports the first of them: every level listed before the optimal one
    has a strictly smaller [queries_per_second]. *)
Theorem print_summary_reports_first_maximum (results : list stats) (w : world) :
  results <> [] ->
  exists opt before after w',
    print_summary results w = (inr tt, w') /\
    results = before ++ opt :: after /\
    Forall (fun st => (queries_per_second st < queries_per_second opt)%Q) before /\
    Forall (fun st => (queries_per_second st <= queries_per_second opt)%Q) after /\
    last (stdout w') (PSummaryRow 0)
    = POptimal (concurrency opt) (queries_per_second opt).
Proof.
  intros Hne. destruct results as [|r0 rest]; [congruence|].
  unfold print_summary, bind. rewrite for_each_print.
  unfold lift, max_by, modify.
  exists (max_by_from queries_per_second r0 rest).
  destruct (max_by_from_first queries_per_second rest r0)
    as [[Heq Hall]|(pre & post & Hl & Hk & Hpre & Hpost)].
  - exists [], rest. eexists. split; [reflexivity|]. rewrite Heq.
    split; [reflexivity|]. split; [constructor|]. split; [exact Hall|].
    simpl stdout. rewrite last_last. reflexivity.
  - exists (r0 :: pre), post. eexists. split; [reflexivity|].
    split; [simpl; rewrite Hl at 1; reflexivity|].
    split; [constructor; assumption|]. split; [exact Hpost|].
    simpl stdout. rewrite last_last. reflexivity.
Qed.

(** The levels of the sweep when the step is not positive or exceeds the
    maximum: none, or a first level that is not positive. *)
Lemma range3_degenerate (max_c step : Z) :
  (step <= 0)%Z \/ (max_c < step)%Z ->
  range3 step (max_c + 1) step = inl ValueError \/
  range3 step (max_c + 1) step = inr [] \/
  exists rest, range3 step (max_c + 1) step = inr (step :: rest) /\ (step <= 0)%Z.
Proof.
  intros H. unfold range3.
  destruct (Z.eqb_spec step 0) as [E|Hnz]; [left; reflexivity | right].
  destruct (Z.to_nat (range_len step (max_c + 1) step)) as [|k] eqn:Hk.
  - left. reflexivity.
  - right. assert (Hneg : (step <= 0)%Z).
    { destruct H as [H|H]; [exact H|].
      unfold range_len in Hk.
      destruct (Z.ltb_spec 0 step) as [Hp|Hn]; [exfalso | exact Hn].
      destruct (Z.ltb_spec step (max_c + 1)); [lia | discriminate]. }
    exists (map (fun i => (step + Z.of_nat i * step)%Z) (seq 1 k)).
    split; [|exact Hneg]. cbn [seq map]. f_equal. f_equal. lia.
Qed.

(** With a step that is zero or negative, or larger than the maximum
    concurrency, [main] starts no worker thread and ends with exit code 1
    after a [ValueError]. *)
Theorem main_exit_code_on_degenerate_sweep
    (max_c step duration : Z) (env_of : Z -> run_env) (w : world) :
  (step <= 0)%Z \/ (max_c < step)%Z ->
  fst (main true max_c step duration env_of w) = (1%Z, Some ValueError).
Proof.
  intros H. unfold main, bind at 1. unfold ret at 1. cbv beta iota.
  unfold bind at 1, run_escalating_benchmark.
  unfold bind at 1, modify at 1. unfold bind at 1, lift.
  destruct (range3_degenerate H) as [E|[E|(rest & E & Hneg)]]; rewrite E.
  - reflexivity.
  - reflexivity.
  - simpl escalate. unfold bind at 1, run_benchmark.
    destruct (Z.leb_spec step 0) as [_|Hpos]; [reflexivity | lia].
Qed.

(** With a working connection test, a step between 1 and the maximum, a
    positive duration and workers that all connect, [main] ends with exit
    code 0 after printing the optimal level. *)
Theorem main_exit_code_on_completed_sweep
    (max_c step duration : Z) (env_of : Z -> run_env) (w : world) :
  (1 <= step <= max_c)%Z -> (0 < duration)%Z ->
  (forall c i, connect_ok (worker_of (env_of c) i) = true) ->
  exists w' c qps,
    main true max_c step duration env_of w = ((0%Z, None), w') /\
    last (stdout w') (PSummaryRow 0) = POptimal c qps /\
    (exists j, (1 <= j)%Z /\ c = (j * step)%Z /\ (c <= max_c)%Z).
Proof.
  intros Hstep Hd Hconn.
  assert (Hdq : (0 < inject_Z duration)%Q).
  { change 0%Q with (inject_Z 0). rewrite <- Zlt_Qlt. exact Hd. }
  destruct (@range3_levels max_c step ltac:(lia)) as (levels & Hrange & _ & Hin).
  assert (Hpos : Forall (fun c => (0 < c)%Z) levels).
  { apply Forall_forall. intros c Hc. apply Hin in Hc.
    destruct Hc as (j & Hj & -> & _). nia. }
  destruct (@escalate_connected (inject_Z duration) env_of levels Hdq Hpos Hconn []
              (print (PEscalatingHeader max_c step) w))
    as (results & w1 & Hrun & Hmap & _).
  assert (Hne : results <> []).
  { intros ->. simpl in Hmap. symmetry in Hmap.
    assert (Hs : In step levels) by (apply Hin; exists 1%Z; lia).
    rewrite Hmap in Hs. exact Hs. }
  destruct (print_summary_optimal w1 Hne) as (opt & w2 & Hsum & Hopt & _ & Hout).
  exists w2, (concurrency opt), (queries_per_second opt).
  split; [|split; [rewrite Hout, app_assoc; apply last_last|]].
  - unfold main, bind at 1. unfold ret at 1. cbv beta iota.
    unfold bind at 1, run_escalating_benchmark.
    unfold bind at 1, modify at 1. unfold bind at 1, lift. rewrite Hrange.
    rewrite Hrun. simpl app. rewrite Hsum. reflexivity.
  - apply Hin. rewrite <- Hmap. apply in_map, Hopt.
Qed.

End QueryBench2Summary.

(** * aurora-map-insertmany.py: the queue between producer and workers *)

Section InsertQueueFacts.

Import MapInsertMany InsertQueue.

Local Open Scope Z_scope.












End InsertQueueFacts.

(** * The generated rows *)

Section RowFacts.

Import MapInsertMany RowSpec.
Local Open Scope Z_scope.

Variable rng : Type.
Variable randbelow : Z -> rng -> Z * rng.
Hypothesis randbelow_range :
  forall n g, 0 < n -> 0 <= fst (randbelow n g) < n.

Variable md5_hexdigest : string -> string.
Variable END_TIME : Z.
Variable random_words : list string.

(** [random.choice] returns an element of the sequence. *)
Lemma choice_member (A : Type) (l : list A) (g g' : rng) (a : A) :
  choice randbelow l g = (inr a, g') -> In a l.
Proof.
  unfold choice. destruct l as [|x l]; [discriminate|].
  destruct (randbelow (len (x :: l)) g) as [i g1].
  unfold getitem. destruct (i <? 0); [discriminate|].
  destruct (nth_error (x :: l) (Z.to_nat i)) as [b|] eqn:E; [|discriminate].
  intros H. injection H as <- _. eapply nth_error_In, E.
Qed.

(** [random.randint(a, b)] returns a number between [a] and [b]. *)
Lemma randint_between (a b v : Z) (g g' : rng) :
  randint randbelow a b g = (inr v, g') -> a <= v <= b.
Proof.
  unfold randint. destruct (Z.ltb_spec b a) as [|Hab]; [discriminate|].
  pose proof (@randbelow_range (b - a + 1) g ltac:(lia)) as Hr.
  destruct (randbelow (b - a + 1) g) as [i g1]. simpl in Hr.
  intros H. injection H as <- _. lia.
Qed.

Lemma generate_rows_well_formed (tiles elements : list string) (n : nat) :
  tiles <> [] -> elements <> [] ->
  forall (batch_data : list row) (g : rng),
  exists rows g',
    generate_rows randbelow md5_hexdigest END_TIME random_words
                  n tiles elements batch_data g
    = (inr (batch_data ++ rows), g') /\
    Forall (well_formed md5_hexdigest END_TIME random_words tiles elements) rows.
Proof.
  intros Ht He. induction n as [|n IH]; intros batch_data g.
  - exists [], g. simpl. rewrite app_nil_r. split; [reflexivity | constructor].
  - simpl generate_rows. unfold bind.
    destruct (@choice_nonempty _ randbelow randbelow_range _ BRANCHES g)
      as (b & g1 & Hb); [discriminate|]. rewrite Hb.
    destruct (@choice_nonempty _ randbelow randbelow_range _ tiles g1 Ht)
      as (t & g2 & Htile). rewrite Htile.
    destruct (@choice_nonempty _ randbelow randbelow_range _ elements g2 He)
      as (e & g3 & Hel). rewrite Hel.
    destruct (@randint_ordered _ randbelow (START_TIME END_TIME) END_TIME g3)
      as (ts & g4 & Hts). { unfold START_TIME. lia. } rewrite Hts.
    destruct (@choice_nonempty _ randbelow randbelow_range _
                (ELEMENT_VALUES random_words) g4) as (ev & g5 & Hev).
    { unfold ELEMENT_VALUES. discriminate. } rewrite Hev.
    set (r := mkRow b t e ts ev (generate_md5 md5_hexdigest ev)).
    destruct (IH (batch_data ++ [r]) g5) as (rows & g' & Hrun & Hall).
    exists (r :: rows), g'. split.
    + rewrite Hrun, <- app_assoc. reflexivity.
    + constructor; [|exact Hall]. unfold well_formed. subst r. simpl.
      split; [exact (@choice_member _ _ _ _ _ Hb)|].
      split; [exact (@choice_member _ _ _ _ _ Htile)|].
      split; [exact (@choice_member _ _ _ _ _ Hel)|].
      split; [exact (@randint_between _ _ _ _ _ Hts)|].
      split; [exact (@choice_member _ _ _ _ _ Hev) | reflexivity].
Qed.

(** Every row of a generated batch is well formed: its branch, tile and
    element come from the candidate lists, its timestamp lies in the last 30
    days before [END_TIME], and its digest is the one of its value. *)
Theorem generate_batch_rows_well_formed
    (batch_id batch_size : Z) (tiles elements : list string) (g : rng) :
  tiles <> [] -> elements <> [] ->
  exists rows g',
    generate_batch randbelow md5_hexdigest END_TIME random_words
                   batch_id batch_size tiles elements g = (inr rows, g') /\
    Forall (well_formed md5_hexdigest END_TIME random_words tiles elements) rows.
Proof.
  intros Ht He. unfold generate_batch.
  destruct (@generate_rows_well_formed tiles elements (Z.to_nat batch_size) Ht He [] g)
    as (rows & g' & Hrun & Hall).
  exists rows, g'. split; [exact Hrun | exact Hall].
Qed.

(** With an empty candidate list and at least one row to build,
    [generate_batch] raises [IndexError] from [random.choice]. *)
Theorem generate_batch_empty_tiles
    (batch_id batch_size : Z) (elements : list string) (g : rng) :
  1 <= batch_size ->
  fst (generate_batch randbelow md5_hexdigest END_TIME random_words
                      batch_id batch_size [] elements g) = inl IndexError.
Proof.
  intros Hn. unfold generate_batch.
  destruct (Z.to_nat batch_size) as [|n] eqn:E; [lia|].
  simpl generate_rows. unfold bind.
  destruct (@choice_nonempty _ randbelow randbelow_range _ BRANCHES g)
    as (b & g1 & Hb); [discriminate|]. rewrite Hb. reflexivity.
Qed.

End RowFacts.

(** * aurora-map-insert.py: the sequential loader *)

Section MapInsertFacts.

Import MapInsertMany MapInsert.
Local Open Scope Z_scope.

Variable rng : Type.
Variable randbelow : Z -> rng -> Z * rng.
Hypothesis randbelow_range :
  forall n g, 0 < n -> 0 <= fst (randbelow n g) < n.

Variable md5_hexdigest : string -> string.
Variable END_TIME : Z.
Variable NUM_ROWS : Z.
Variable insert_ok : nat -> bool.

Lemma string_length_append (a b : string) :
  String.length (a ++ b) = (String.length a + String.length b)%nat.
Proof. induction a as [|c a IH]; simpl; [reflexivity | rewrite IH; reflexivity]. Qed.

Lemma choices_length (population : list ascii) (k : nat) (g : rng) :
  population <> [] ->
  exists s g', choices randbelow population k g = (inr s, g') /\ String.length s = k.
Proof.
  intros Hne. revert g. induction k as [|k IH]; intros g.
  - exists EmptyString, g. split; reflexivity.
  - simpl choices. unfold bind.
    destruct (@choice_nonempty _ randbelow randbelow_range _ population g Hne)
      as (c & g1 & ->).
    destruct (IH g1) as (s & g2 & -> & Hlen).
    exists (String c s), g2. split; [reflexivity|]. simpl. rewrite Hlen. reflexivity.
Qed.

Lemma generate_element_value_returns (g : rng) :
  exists v g',
    generate_element_value randbelow g = (inr v, g') /\
    (String.length v <= 11)%nat.
Proof.
  unfold generate_element_value, bind.
  destruct (@choice_nonempty _ randbelow randbelow_range _
              ["name"; "status"; "category"]%string g) as (vt & g1 & Hvt);
    [discriminate|].
  rewrite Hvt. apply (@choice_member _ randbelow) in Hvt.
  destruct Hvt as [<-|[<-|[<-|[]]]].
  1: change ("name" =? "name")%string with true.
  2: change ("status" =? "name")%string with false;
     change ("status" =? "status")%string with true.
  3: change ("category" =? "name")%string with false;
     change ("category" =? "status")%string with false.
  all: cbv beta iota.
  - destruct (@choices_length ascii_uppercase 1 g1) as (first & g2 & -> & Hf);
      [discriminate|].
    destruct (@randint_ordered _ randbelow 4 8 g2) as (k & g3 & Hk); [lia|].
    rewrite Hk. apply (@randint_between _ randbelow randbelow_range) in Hk.
    destruct (@choices_length ascii_lowercase (Z.to_nat k) g3) as (rest & g4 & -> & Hr);
      [discriminate|].
    eexists _, _. split; [reflexivity|].
    rewrite string_length_append, Hf, Hr. lia.
  - destruct (@choice_nonempty _ randbelow randbelow_range _
                ["active"; "inactive"; "pending"; "damaged"; "new"]%string g1)
      as (v & g2 & Hv); [discriminate|].
    rewrite Hv. exists v, g2. split; [reflexivity|].
    apply (@choice_member _ randbelow) in Hv.
    destruct Hv as [<-|[<-|[<-|[<-|[<-|[]]]]]]; simpl; lia.
  - destruct (@choice_nonempty _ randbelow randbelow_range _
                ["residential"; "commercial"; "industrial"; "public"; "private"]%string g1)
      as (v & g2 & Hv); [discriminate|].
    rewrite Hv. exists v, g2. split; [reflexivity|].
    apply (@choice_member _ randbelow) in Hv.
    destruct Hv as [<-|[<-|[<-|[<-|[<-|[]]]]]]; simpl; lia.
Qed.

(** [generate_element_value] always returns, and its value has at most 11
    characters: a status or category word, or a name of 5 to 9 letters. *)
Theorem element_value_length (g : rng) :
  exists v g',
    generate_element_value randbelow g = (inr v, g') /\
    (String.length v <= 11)%nat.
Proof. apply generate_element_value_returns. Qed.

Hypothesis inserts_succeed : forall i, insert_ok i = true.

(** One iteration adds a row to the pending list, or, when that makes 1000,
    hands the 1000 rows to the database and starts an empty list. *)
Lemma insert_one_step (data : list row) (s : loader rng) :
  len data < batch_size ->
  exists data' s',
    insert_one randbelow md5_hexdigest END_TIME insert_ok data s = (inr data', s') /\
    ((len data + 1 < batch_size /\ len data' = len data + 1 /\
      inserted s' = inserted s /\ pbar s' = pbar s) \/
     (len data + 1 = batch_size /\ data' = [] /\
      exists b, inserted s' = inserted s ++ [b] /\ len b = batch_size /\
                pbar s' = pbar s + batch_size)).
Proof.
  intros Hlt. destruct s as [g ins pb]. unfold insert_one, bind, with_rng.
  cbv beta iota zeta delta [gen inserted pbar].
  destruct (@choice_nonempty _ randbelow randbelow_range _ BRANCHES g)
    as (b & g1 & ->); [discriminate|].
  cbv beta iota zeta delta [gen inserted pbar].
  destruct (@choice_nonempty _ randbelow randbelow_range _ all_tiles g1 all_tiles_nonempty)
    as (t & g2 & ->).
  cbv beta iota zeta delta [gen inserted pbar].
  destruct (@choice_nonempty _ randbelow randbelow_range _ all_elements g2
              all_elements_nonempty) as (e & g3 & ->).
  cbv beta iota zeta delta [gen inserted pbar].
  destruct (@randint_ordered _ randbelow (START_TIME END_TIME) END_TIME g3)
    as (ts & g4 & ->). { unfold START_TIME. lia. }
  cbv beta iota zeta delta [gen inserted pbar].
  destruct (generate_element_value_returns g4) as (ev & g5 & -> & _).
  cbv beta iota zeta delta [gen inserted pbar].
  set (r := mkRow b t e ts ev (generate_md5 md5_hexdigest ev)).
  assert (Hlen : len (data ++ [r]) = len data + 1).
  { unfold len. rewrite length_app. simpl. lia. }
  destruct (Z.leb_spec batch_size (len (data ++ [r]))) as [Hfull|Hpart].
  - unfold flush. cbv beta iota zeta delta [gen inserted pbar].
    rewrite inserts_succeed. unfold ret.
    eexists _, _. split; [reflexivity|]. right.
    split; [lia|]. split; [reflexivity|].
    exists (data ++ [r]). cbv beta iota zeta delta [gen inserted pbar].
    split; [reflexivity|]. split; [lia | reflexivity].
  - unfold ret. eexists _, _. split; [reflexivity|]. left.
    cbv beta iota zeta delta [gen inserted pbar].
    split; [lia|]. split; [exact Hlen|]. split; reflexivity.
Qed.

Lemma insert_rows_batches (n : nat) :
  forall (data : list row) (s : loader rng),
  len data < batch_size ->
  exists data' s' fulls,
    insert_rows randbelow md5_hexdigest END_TIME insert_ok n data s = (inr data', s') /\
    inserted s' = inserted s ++ fulls /\
    Forall (fun b => len b = batch_size) fulls /\
    len fulls = (len data + Z.of_nat n) / batch_size /\
    len data' = (len data + Z.of_nat n) mod batch_size /\
    pbar s' = pbar s + batch_size * len fulls.
Proof.
  unfold batch_size. induction n as [|n IH]; intros data s Hlt.
  - exists data, s, []. simpl insert_rows. unfold ret. rewrite app_nil_r.
    pose proof (len_nonneg data).
    change (Z.of_nat 0) with 0. rewrite Z.add_0_r.
    rewrite Z.div_small, Z.mod_small by lia.
    repeat split; try constructor; change (len (@nil (list row))) with 0; lia.
  - simpl insert_rows. unfold bind.
    destruct (@insert_one_step data s Hlt) as (d1 & s1 & -> & Hcase).
    pose proof (len_nonneg data) as Hd.
    rewrite Nat2Z.inj_succ.
    destruct Hcase as [(Hsmall & Hl1 & Hi1 & Hp1)|(Hfull & -> & b & Hi1 & Hb & Hp1)];
      unfold batch_size in *.
    + destruct (IH d1 s1 ltac:(lia)) as (d' & s' & fulls & Hrun & Hins & Hall & Hf & Hr & Hp).
      exists d', s', fulls. rewrite Hl1 in Hf, Hr.
      replace (len data + Z.succ (Z.of_nat n)) with (len data + 1 + Z.of_nat n) by lia.
      repeat split; try assumption; congruence.
    + destruct (IH [] s1 ltac:(change (len (@nil row)) with 0; lia))
        as (d' & s' & fulls & Hrun & Hins & Hall & Hf & Hr & Hp).
      change (len (@nil row)) with 0 in Hf, Hr. rewrite Z.add_0_l in Hf, Hr.
      exists d', s', (b :: fulls).
      replace (len data + Z.succ (Z.of_nat n)) with (Z.of_nat n + 1 * 1000) by lia.
      rewrite Z.div_add, Z.mod_add by lia.
      split; [exact Hrun|].
      split; [rewrite Hins, Hi1, <- app_assoc; reflexivity|].
      split; [constructor; assumption|].
      split; [rewrite len_cons; lia|].
      split; [exact Hr|].
      rewrite Hp, Hp1, len_cons. lia.
Qed.

(** When no insert fails, [insert_data] hands the database
    [NUM_ROWS // 1000] batches of exactly 1000 rows followed, when
    [NUM_ROWS] is not a multiple of 1000, by one batch with the remaining
    rows; the progress bar ends at [NUM_ROWS]. *)
Theorem insert_data_batches (s : loader rng) :
  0 <= NUM_ROWS ->
  exists s' fulls tail,
    insert_data randbelow md5_hexdigest END_TIME NUM_ROWS insert_ok s = (inr tt, s') /\
    inserted s' = inserted s ++ fulls ++ tail /\
    Forall (fun b => len b = 1000) fulls /\
    len fulls = NUM_ROWS / 1000 /\
    (NUM_ROWS mod 1000 = 0 -> tail = []) /\
    (NUM_ROWS mod 1000 <> 0 -> exists b, tail = [b] /\ len b = NUM_ROWS mod 1000) /\
    pbar s' = pbar s + NUM_ROWS.
Proof.
  intros HN. unfold insert_data, bind.
  destruct (@insert_rows_batches (Z.to_nat NUM_ROWS) [] s
              ltac:(change (len (@nil row)) with 0; unfold batch_size; lia))
    as (d' & s1 & fulls & -> & Hins & Hall & Hf & Hr & Hp).
  unfold batch_size in *. change (len (@nil row)) with 0 in Hf, Hr.
  rewrite Z.add_0_l, Z2Nat.id in Hf, Hr by lia.
  pose proof (Z.div_mod NUM_ROWS 1000 ltac:(lia)) as Hdm.
  destruct d' as [|r0 d'].
  - change (len (@nil row)) with 0 in Hr.
    exists s1, fulls, []. unfold ret. rewrite app_nil_r.
    split; [reflexivity|]. split; [exact Hins|]. split; [exact Hall|].
    split; [exact Hf|]. split; [reflexivity|]. split; [intros Hnz; congruence|].
    rewrite Hp. lia.
  - unfold flush. rewrite inserts_succeed.
    eexists _, fulls, [r0 :: d']. split; [reflexivity|]. simpl.
    split; [rewrite Hins, <- app_assoc; reflexivity|]. split; [exact Hall|].
    split; [exact Hf|].
    split; [intros Hz; rewrite Hz in Hr; rewrite len_cons in Hr; unfold len in Hr; lia|].
    split; [intros _; eexists; split; [reflexivity | exact Hr]|].
    rewrite Hp, Hr. lia.
Qed.

End MapInsertFacts.

(** * The further properties on concrete runs *)

Section MoreWitnesses.

Local Open Scope Q_scope.

Lemma lcg_in_range (n g : Z) :
  (0 < n)%Z -> (0 <= fst (Scenarios.lcg_randbelow n g) < n)%Z.
Proof. intros Hn. simpl. apply Z.mod_pos_bound. exact Hn. Qed.

Lemma stats_between_min_and_max_witness :
  Scenarios.twenty_samples <> [] /\ ~ 20 == 0 /\
  exists st,
    MapBench.compute_stats Scenarios.newton_sqrt 1 20 Scenarios.twenty_samples
    = inr (Some st) /\
    MapBench.min_time st <= MapBench.p95_time st <= MapBench.max_time st.
Proof.
  assert (H1 : Scenarios.twenty_samples <> []) by (vm_compute; discriminate).
  assert (H2 : ~ 20 == 0) by (vm_compute; discriminate).
  destruct (@stats_between_min_and_max Scenarios.newton_sqrt 1 20
              Scenarios.twenty_samples H1 H2) as (st & Hrun & _ & _ & Hp & _).
  split; [exact H1|]. split; [exact H2|]. exists st. split; assumption.
Defined.

Lemma run_benchmark_zero_elapsed_time_witness :
  (0 < 1)%Z /\ 100 == 100 /\ MapBench.collect [inr [(1%Q, 3%Z)]] <> [] /\
  MapBench.run_benchmark Scenarios.newton_sqrt 1 1 100 100 [inr [(1%Q, 3%Z)]]
  = inl ZeroDivisionError.
Proof.
  assert (H1 : (0 < 1)%Z) by lia.
  assert (H2 : 100 == 100) by reflexivity.
  assert (H3 : MapBench.collect [inr [(1%Q, 3%Z)]] <> []) by (vm_compute; discriminate).
  split; [exact H1|]. split; [exact H2|]. split; [exact H3|].
  exact (@run_benchmark_zero_elapsed_time Scenarios.newton_sqrt 1 1 100 100
           [inr [(1%Q, 3%Z)]] H1 H2 H3).
Defined.

Lemma cohort_total_queries_witness :
  (0 < 2)%Z /\ (0 <= 1)%Z /\ 100 < 110 /\
  len (MapBenchMain.lv_tasks (MoreScenarios.two_levels 2)) = 2%Z /\
  match MapBench.run_benchmark_cohort Scenarios.newton_sqrt 2 1 100 110
          (MapBenchMain.lv_tasks (MoreScenarios.two_levels 2)) with
  | inr (Some st) => MapBench.total_queries st = 2%Z
  | _ => False
  end.
Proof.
  assert (H1 : (0 < 2)%Z) by lia.
  assert (H2 : (0 <= 1)%Z) by lia.
  assert (H3 : 100 < 110) by reflexivity.
  assert (H4 : len (MapBenchMain.lv_tasks (MoreScenarios.two_levels 2)) = 2%Z)
    by reflexivity.
  assert (H5 : Forall (fun te : MapBench.task_env =>
                         match te with inr envs => len envs = 1%Z | inl _ => True end)
                      (MapBenchMain.lv_tasks (MoreScenarios.two_levels 2)))
    by (repeat constructor).
  pose proof (@cohort_total_queries Scenarios.newton_sqrt 2 1 100 110
                (MapBenchMain.lv_tasks (MoreScenarios.two_levels 2)) H1 H2 H3 H4 H5) as H.
  split; [exact H1|]. split; [exact H2|]. split; [exact H3|]. split; [exact H4|].
  cbv zeta in H.
  destruct (MapBench.run_benchmark_cohort Scenarios.newton_sqrt 2 1 100 110
              (MapBenchMain.lv_tasks (MoreScenarios.two_levels 2))) as [e|[st|]].
  - exact H.
  - destruct H as [H _]. rewrite H. reflexivity.
  - vm_compute in H. discriminate.
Defined.

Lemma pool_size_covers_every_level_witness :
  [1%Z; 5%Z; 10%Z; 20%Z] <> [] /\
  MapBenchMain.effective_pool_size 15 [1%Z; 5%Z; 10%Z; 20%Z] = inr 20%Z.
Proof.
  assert (H1 : [1%Z; 5%Z; 10%Z; 20%Z] <> []) by discriminate.
  destruct (@pool_size_covers_every_level 15 [1%Z; 5%Z; 10%Z; 20%Z] H1)
    as (p & Hp & _).
  split; [exact H1|]. rewrite Hp. vm_compute in Hp. symmetry. exact Hp.
Defined.


Lemma main_aborts_on_bad_level_witness :
  Forall (MapBenchMain.runnable MoreScenarios.two_levels) [2%Z] /\ (0 <= 0)%Z /\
  exists p w',
    MapBenchMain.main Scenarios.newton_sqrt true 50 ([2%Z] ++ 0%Z :: [1%Z]) 1
      MoreScenarios.two_levels MoreScenarios.fresh_process = (inr tt, w') /\
    MapBenchMain.pool w' = MapBenchMain.PoolOpen p.
Proof.
  assert (H1 : Forall (MapBenchMain.runnable MoreScenarios.two_levels) [2%Z]).
  { repeat constructor. }
  assert (H2 : (0 <= 0)%Z) by lia.
  destruct (@main_aborts_on_bad_level Scenarios.newton_sqrt 50 1 0 [2%Z] [1%Z]
              MoreScenarios.two_levels MoreScenarios.fresh_process H1 H2)
    as (p & w' & Hrun & Hpool & _).
  split; [exact H1|]. split; [exact H2|].
  exists p, w'. split; assumption.
Defined.

Lemma worker_stops_at_first_failure_witness :
  QueryBench2.connect_ok MoreScenarios.stumbling_worker = true /\
  exists elapsed w',
    QueryBench2.execute_query 0 MoreScenarios.stumbling_worker Scenarios.idle
    = (inr (1%Z, elapsed), w') /\
    QueryBench2.stdout w' = [QueryBench2.PThreadError 0 DatabaseError].
Proof.
  assert (H1 : QueryBench2.connect_ok MoreScenarios.stumbling_worker = true)
    by reflexivity.
  destruct (@worker_stops_at_first_failure 0 MoreScenarios.stumbling_worker
              Scenarios.idle H1) as (el & w' & added & Hrun & _ & _ & Hout).
  split; [exact H1|]. exists el, w'. split; [exact Hrun | exact Hout].
Defined.

Lemma total_queries_counts_answered_queries_witness :
  (0 < 2)%Z /\ 0 < 10 /\
  exists st w',
    QueryBench2.run_benchmark 2 10 MoreScenarios.stumbling_run Scenarios.idle
    = (inr st, w') /\
    QueryBench2.total_queries st = 2%Z.
Proof.
  assert (H1 : (0 < 2)%Z) by lia.
  assert (H2 : 0 < 10) by reflexivity.
  assert (H3 : forall i, QueryBench2.connect_ok
                           (QueryBench2.worker_of MoreScenarios.stumbling_run i) = true)
    by (intros i; reflexivity).
  destruct (@total_queries_counts_answered_queries 2 10 MoreScenarios.stumbling_run
              Scenarios.idle H1 H2 H3) as (st & w' & Hrun & Htq).
  split; [exact H1|]. split; [exact H2|].
  exists st, w'. split; [exact Hrun | exact Htq].
Defined.


Lemma print_summary_reports_first_maximum_witness :
  MoreScenarios.tied_results <> [] /\
  exists w',
    QueryBench2.print_summary MoreScenarios.tied_results Scenarios.idle = (inr tt, w') /\
    last (QueryBench2.stdout w') (QueryBench2.PSummaryRow 0) = QueryBench2.POptimal 8 9.
Proof.
  assert (H1 : MoreScenarios.tied_results <> []) by discriminate.
  destruct (@print_summary_reports_first_maximum MoreScenarios.tied_results
              Scenarios.idle H1) as (opt & before & after & w' & Hrun & _ & _ & _ & Hlast).
  split; [exact H1|]. exists w'. split; [exact Hrun|].
  vm_compute in Hrun. injection Hrun as <-. reflexivity.
Defined.

Lemma main_exit_code_on_degenerate_sweep_witness :
  ((4 <= 0)%Z \/ (2 < 4)%Z) /\
  fst (QueryBench2Main.main true 2 4 10 (fun _ => Scenarios.steady_run) Scenarios.idle)
  = (1%Z, Some ValueError).
Proof.
  assert (H1 : (4 <= 0)%Z \/ (2 < 4)%Z) by (right; lia).
  split; [exact H1|].
  exact (@main_exit_code_on_degenerate_sweep 2 4 10 (fun _ => Scenarios.steady_run)
           Scenarios.idle H1).
Defined.

Lemma main_exit_code_on_completed_sweep_witness :
  (1 <= 1 <= 2)%Z /\ (0 < 10)%Z /\
  exists w',
    QueryBench2Main.main true 2 1 10 (fun _ => Scenarios.steady_run) Scenarios.idle
    = ((0%Z, None), w').
Proof.
  assert (H1 : (1 <= 1 <= 2)%Z) by lia.
  assert (H2 : (0 < 10)%Z) by lia.
  assert (H3 : forall c i : Z,
             QueryBench2.connect_ok
               (QueryBench2.worker_of ((fun _ : Z => Scenarios.steady_run) c) i) = true)
    by (intros c i; reflexivity).
  destruct (@main_exit_code_on_completed_sweep 2 1 10 (fun _ => Scenarios.steady_run)
              Scenarios.idle H1 H2 H3) as (w' & c & qps & Hrun & _).
  split; [exact H1|]. split; [exact H2|]. exists w'. exact Hrun.
Defined.



Lemma generate_batch_rows_well_formed_witness :
  MapInsertMany.all_tiles <> [] /\ MapInsertMany.all_elements <> [] /\
  exists rows g',
    MapInsertMany.generate_batch Scenarios.lcg_randbelow (fun s => s) 1739769029270
      ["Zabcde"%string] 0 3 MapInsertMany.all_tiles MapInsertMany.all_elements 12345%Z
    = (inr rows, g') /\
    Forall (RowSpec.well_formed (fun s => s) 1739769029270 ["Zabcde"%string]
              MapInsertMany.all_tiles MapInsertMany.all_elements) rows.
Proof.
  split; [exact all_tiles_nonempty|]. split; [exact all_elements_nonempty|].
  exact (@generate_batch_rows_well_formed Z Scenarios.lcg_randbelow lcg_in_range
           (fun s => s) 1739769029270 ["Zabcde"%string] 0 3
           MapInsertMany.all_tiles MapInsertMany.all_elements 12345%Z
           all_tiles_nonempty all_elements_nonempty).
Defined.

Lemma generate_batch_empty_tiles_witness :
  (1 <= 3)%Z /\
  fst (MapInsertMany.generate_batch Scenarios.lcg_randbelow (fun s => s) 1739769029270
         ["Zabcde"%string] 0 3 [] MapInsertMany.all_elements 12345%Z)
  = inl IndexError.
Proof.
  assert (H1 : (1 <= 3)%Z) by lia.
  split; [exact H1|].
  exact (@generate_batch_empty_tiles Z Scenarios.lcg_randbelow lcg_in_range
           (fun s => s) 1739769029270 ["Zabcde"%string] 0 3
           MapInsertMany.all_elements 12345%Z H1).
Defined.

Lemma element_value_length_witness :
  exists v g',
    MapInsert.generate_element_value Scenarios.lcg_randbelow 12345%Z = (inr v, g') /\
    (String.length v <= 11)%nat.
Proof.
  exact (@element_value_length Z Scenarios.lcg_randbelow lcg_in_range 12345%Z).
Defined.

Lemma insert_data_batches_witness :
  (0 <= 2500)%Z /\
  exists s',
    MapInsert.insert_data Scenarios.lcg_randbelow (fun s => s) 1739769029270 2500
      (fun _ => true) (MapInsert.mkLoader 12345%Z [] 0) = (inr tt, s') /\
    MapInsert.pbar s' = 2500%Z.
Proof.
  assert (H1 : (0 <= 2500)%Z) by lia.
  destruct (@insert_data_batches Z Scenarios.lcg_randbelow lcg_in_range (fun s => s)
              1739769029270 2500 (fun _ => true) (fun _ => eq_refl)
              (MapInsert.mkLoader 12345%Z [] 0) H1)
    as (s' & fulls & tail & Hrun & _ & _ & _ & _ & _ & Hp).
  split; [exact H1|]. exists s'. split; [exact Hrun | exact Hp].
Defined.

End MoreWitnesses.
